(** * Vector tile source: tile acquisition, worker dispatch and metadata loading

    A shallow embedding of [src/source/vector_tile_source.js] and
    [src/source/load_tilejson.js].  JavaScript objects that are used as
    dictionaries are finite maps from property names to values; the mutable
    objects that closures keep a reference to (tiles, the source itself, the
    pending requests of the browser) live in explicit stores that every
    operation threads through. *)

From Stdlib Require Import ZArith String List Bool Lia.
From stdpp Require Import base option list gmap strings fin_maps.

Local Open Scope string_scope.
Local Open Scope Z_scope.

(** ** JavaScript values *)

(** The JSON-like values that occur in source options and TileJSON documents.
    Numbers are restricted to integers. *)
#[warnings="-register-all"]
Inductive Value : Type :=
| VUndefined
| VNull
| VBool (b : bool)
| VNum (n : Z)
| VStr (s : string)
| VArr (items : list Value)
| VObj (fields : list (string * Value)).

Abbreviation JSObject := (gmap string Value).

(** ToBoolean. *)
Definition truthy (v : Value) : bool :=
  match v with
  | VUndefined | VNull => false
  | VBool b => b
  | VNum n => negb (n =? 0)
  | VStr s => negb (String.eqb s "")
  | VArr _ | VObj _ => true
  end.

(** [o.k]: reading a property that the object does not have gives
    [undefined]. *)
Definition prop (o : JSObject) (k : string) : Value :=
  default VUndefined (o !! k).

(** [v === n] for a number literal [n]. *)
Definition is_number (v : Value) (n : Z) : bool :=
  match v with
  | VNum m => m =? n
  | _ => false
  end.

(** [v === s] for a string literal [s]. *)
Definition is_string (v : Value) (s : string) : bool :=
  match v with
  | VStr s' => String.eqb s' s
  | _ => false
  end.

(** Result of running code that may throw. *)
Inductive Completion (A : Type) : Type :=
| Normal (a : A)
| Throw (message : string).
Arguments Normal {A} a.
Arguments Throw {A} message.

(** ** util.js *)

(** Modelled from the spec: [extend] of util/util.js is not part of the
    sources at hand.  It copies every property of [src] onto [dest], so on
    a property that both define the value of [src] wins ("explicit source
    options override same-named fetched fields"). *)
Definition extend (dest src : JSObject) : JSObject := src ∪ dest.

(** Modelled from the spec: [pick] of util/util.js is not part of the
    sources at hand.  It builds a new object from the listed properties
    that [src] has ("recognized keys"). *)
Definition pick (src : JSObject) (properties : list string) : JSObject :=
  foldl (fun result k =>
           match src !! k with
           | Some v => <[k := v]> result
           | None => result
           end) ∅ properties.

(** ** Collaborators of the metadata loader *)

(** An error as the fetch layer reports it; [status] is the HTTP status
    when there is one. *)
Record Error : Type := {
  status : option Z;
  message : string;
}.

(** The resource kinds of util/ajax.js that this code passes on. *)
Inductive ResourceType : Type :=
| ResourceSource
| ResourceTile.

(** [map._requestManager]: URL rewriting is outside this code and is taken
    as given. *)
Class RequestManager : Type := {
  normalizeSourceURL : Value -> string;
  normalizeTileURL : string -> string;
  transformRequest : string -> ResourceType -> string;
  canonicalizeTileset : JSObject -> Value -> Value;
}.

(** ** load_tilejson.js *)

Module LoadTileJSON.

(** What [loaded] does with the callback it was given. *)
Inductive Delivery : Type :=
| CallbackError (err : Error)
| CallbackResult (result : JSObject).

Definition recognized : list string :=
  ["tiles"; "minzoom"; "maxzoom"; "attribution"; "mapbox_logo"; "bounds";
   "scheme"; "tileSize"; "encoding"; "zoomoffset"].

Fixpoint assoc (k : string) (fields : list (string * Value)) : option Value :=
  match fields with
  | [] => None
  | (k', v) :: rest => if String.eqb k' k then Some v else assoc k rest
  end.

(** [v.k] on an arbitrary value: reading a property of [null] or
    [undefined] throws, any other value without the property gives
    [undefined]. *)
Definition member (v : Value) (k : string) : Completion Value :=
  match v with
  | VUndefined | VNull => Throw "TypeError"
  | VObj fields => Normal (default VUndefined (assoc k fields))
  | _ => Normal VUndefined
  end.

(** [layers.map((layer) => { return layer.id; })] *)
Fixpoint layer_ids (layers : list Value) : Completion (list Value) :=
  match layers with
  | [] => Normal []
  | layer :: rest =>
      match member layer "id" with
      | Throw m => Throw m
      | Normal i =>
          match layer_ids rest with
          | Throw m => Throw m
          | Normal ids => Normal (i :: ids)
          end
      end
  end.

(** Lines 33-36: the layer list is read from the merged document, and a
    truthy value that is not an array has no [map] to call. *)
Definition with_vector_layers (tileJSON result : JSObject)
  : Completion JSObject :=
  let vector_layers := prop tileJSON "vector_layers" in
  if truthy vector_layers then
    match vector_layers with
    | VArr layers =>
        match layer_ids layers with
        | Throw m => Throw m
        | Normal ids =>
            Normal (<["vectorLayerIds" := VArr ids]>
                      (<["vectorLayers" := vector_layers]> result))
        end
    | _ => Throw "TypeError"
    end
  else Normal result.

(** The inner function [loaded] (lines 23-41).  [None] as the delivery
    means that the callback is not called at all. *)
Definition loaded `{RequestManager} (options : JSObject)
    (err : option Error) (tileJSON : option JSObject)
  : Completion (option Delivery) :=
  match err with
  | Some e => Normal (Some (CallbackError e))
  | None =>
      match tileJSON with
      | None => Normal None
      | Some tileJSON =>
          (* explicit source options take precedence over TileJSON *)
          let tileJSON := extend tileJSON options in
          let result := pick tileJSON recognized in
          match with_vector_layers tileJSON result with
          | Throw m => Throw m
          | Normal result =>
              let tiles := canonicalizeTileset result (prop options "url") in
              Normal (Some (CallbackResult (<["tiles" := tiles]> result)))
          end
      end
  end.

(** *** The browser side: fetches and animation frames *)

(** A task that the browser holds until it completes or is cancelled.  The
    continuation [loaded] is a closure over the options and the callback;
    the options are recorded as they are when the task is created (the
    source only changes its options after cancelling its pending task). *)
Inductive Task (K : Type) : Type :=
| JSONRequest (url : string) (options : JSObject) (callback : K)
| FrameTask (options : JSObject) (callback : K).
Arguments JSONRequest {K} url options callback.
Arguments FrameTask {K} options callback.

(** A [Cancelable] is the identity of the task it cancels. *)
Definition Cancelable : Type := nat.

Record Browser (K : Type) : Type := {
  pending : gmap nat (Task K);
  next_handle : nat;
  requested : list string;
}.
Arguments pending {K} b.
Arguments next_handle {K} b.
Arguments requested {K} b.

Definition no_tasks {K : Type} : Browser K :=
  {| pending := ∅; next_handle := 0%nat; requested := [] |}.

(** Modelled from the spec: [getJSON] of util/ajax.js is not part of the
    sources at hand ("Resource Fetcher.getJSON(url, callback) ->
    Cancelable").  It starts one network fetch and hands back the handle
    that cancels it. *)
Definition getJSON {K : Type} (url : string) (options : JSObject)
    (callback : K) (b : Browser K) : Cancelable * Browser K :=
  (next_handle b,
   {| pending := <[next_handle b := JSONRequest url options callback]> (pending b);
      next_handle := S (next_handle b);
      requested := (requested b ++ [url])%list |}).

(** Modelled from the spec: [browser.frame] of util/browser.js is not part
    of the sources at hand.  It schedules the function for "the next
    animation-frame boundary" and hands back the handle that cancels it;
    nothing is fetched. *)
Definition frame {K : Type} (options : JSObject) (callback : K)
    (b : Browser K) : Cancelable * Browser K :=
  (next_handle b,
   {| pending := <[next_handle b := FrameTask options callback]> (pending b);
      next_handle := S (next_handle b);
      requested := requested b |}).

(** Modelled from the spec: the [cancel] of a handle ("cancellation before
    completion must suppress the callback") withdraws the task; on a task
    that is already gone it does nothing. *)
Definition cancel {K : Type} (h : Cancelable) (b : Browser K) : Browser K :=
  {| pending := delete h (pending b);
     next_handle := next_handle b;
     requested := requested b |}.

(** The exported function (lines 22-48). *)
Definition loadTileJSON {K : Type} `{RequestManager} (options : JSObject)
    (callback : K) (b : Browser K) : Cancelable * Browser K :=
  if truthy (prop options "url") then
    getJSON (transformRequest (normalizeSourceURL (prop options "url"))
                              ResourceSource)
            options callback b
  else
    frame options callback b.

(** What the browser does later.  The response to the fetch [h] arrives:
    the task is done and [loaded] runs with the response, unless the task
    was cancelled. *)
Definition respond {K : Type} `{RequestManager} (h : Cancelable)
    (err : option Error) (tileJSON : option JSObject) (b : Browser K)
  : Browser K * option (K * Completion (option Delivery)) :=
  match pending b !! h with
  | Some (JSONRequest _ options callback) =>
      (cancel h b, Some (callback, loaded options err tileJSON))
  | _ => (b, None)
  end.

(** The animation frame of task [h] comes: [loaded(null, options)] runs,
    unless the task was cancelled. *)
Definition animation_frame {K : Type} `{RequestManager} (h : Cancelable)
    (b : Browser K)
  : Browser K * option (K * Completion (option Delivery)) :=
  match pending b !! h with
  | Some (FrameTask options callback) =>
      (cancel h b, Some (callback, loaded options None (Some options)))
  | _ => (b, None)
  end.

End LoadTileJSON.

(** ** Tiles, workers and the source object *)

Definition Actor : Type := nat.

(** A callback handed to [loadTile] belongs to the caller (the tile
    cache).  The coordinator only ever calls it, so a callback is known by
    its identity and every call is recorded in the trace. *)
Definition Callback : Type := nat.

Definition ResourceTiming : Type := list string.

(** [OverscaledTileID], as far as this code looks into it. *)
Record TileID : Type := {
  overscaledZ : Z;
  canonical : Z * Z * Z;
}.

(** What a tile fetch or a worker hands to the completion function. *)
Record TileResult : Type := {
  rawData : list Byte.byte;
  cacheControl : Value;
  expires : Value;
  resourceTiming : option ResourceTiming;
}.

(** [params.data] of a [loadTile] message. *)
Record FetchedData : Type := {
  fd_cacheControl : Value;
  fd_expires : Value;
  fd_rawData : list Byte.byte;
}.

Record RequestParameters : Type := {
  url : string;
  collectResourceTiming : Value;
}.

Module Params.
Record t : Type := {
  request : RequestParameters;
  data : option FetchedData;
  uid : nat;
  tileID : TileID;
  tileZoom : Z;
  zoom : Z;
  tileSize : Value;
  type : Value;
  source : string;
  pixelRatio : Z;
  showCollisionBoxes : bool;
  promoteId : Value;
  isSymbolTile : bool;
}.

(** [params.data = d] *)
Definition set_data (d : option FetchedData) (p : t) : t :=
  {| request := request p; data := d; uid := uid p; tileID := tileID p;
     tileZoom := tileZoom p; zoom := zoom p; tileSize := tileSize p;
     type := type p; source := source p; pixelRatio := pixelRatio p;
     showCollisionBoxes := showCollisionBoxes p; promoteId := promoteId p;
     isSymbolTile := isSymbolTile p |}.
End Params.

(** The functions that [loadTile] binds and hands out; a tile is named by
    its reference in the heap of the world. *)
Inductive Continuation : Type :=
| Done (tile : nat) (callback : Callback)
| Fetched (tile : nat) (callback : Callback) (params : Params.t).

(** [tile.request]: the cancel function of an inline fetch (a waiter of the
    deduplication table), or what [actor.send] returned. *)
Inductive Request : Type :=
| InlineFetch (key : string) (waiter : nat)
| Sent (message : nat).

Module Tile.
Record t : Type := {
  uid : nat;
  tileID : TileID;
  tileZoom : Z;
  isSymbolTile : bool;
  state : string;
  actor : option Actor;
  request : option Request;
  aborted : bool;
  reloadCallback : option Callback;
  resourceTiming : option ResourceTiming;
}.

Definition set_state (s : string) (x : t) : t :=
  {| uid := uid x; tileID := tileID x; tileZoom := tileZoom x;
     isSymbolTile := isSymbolTile x; state := s; actor := actor x;
     request := request x; aborted := aborted x;
     reloadCallback := reloadCallback x;
     resourceTiming := resourceTiming x |}.

Definition set_actor (a : option Actor) (x : t) : t :=
  {| uid := uid x; tileID := tileID x; tileZoom := tileZoom x;
     isSymbolTile := isSymbolTile x; state := state x; actor := a;
     request := request x; aborted := aborted x;
     reloadCallback := reloadCallback x;
     resourceTiming := resourceTiming x |}.

Definition set_request (q : option Request) (x : t) : t :=
  {| uid := uid x; tileID := tileID x; tileZoom := tileZoom x;
     isSymbolTile := isSymbolTile x; state := state x; actor := actor x;
     request := q; aborted := aborted x;
     reloadCallback := reloadCallback x;
     resourceTiming := resourceTiming x |}.

Definition set_reloadCallback (c : option Callback) (x : t) : t :=
  {| uid := uid x; tileID := tileID x; tileZoom := tileZoom x;
     isSymbolTile := isSymbolTile x; state := state x; actor := actor x;
     request := request x; aborted := aborted x;
     reloadCallback := c;
     resourceTiming := resourceTiming x |}.

Definition set_resourceTiming (r : option ResourceTiming) (x : t) : t :=
  {| uid := uid x; tileID := tileID x; tileZoom := tileZoom x;
     isSymbolTile := isSymbolTile x; state := state x; actor := actor x;
     request := request x; aborted := aborted x;
     reloadCallback := reloadCallback x;
     resourceTiming := r |}.
End Tile.

(** What the code calls on objects it does not own, in the order of the
    calls. *)
Inductive Payload : Type :=
| TileParams (params : Params.t)
| TileRef (uid : nat) (type : Value) (source : string).

Inductive Event : Type :=
| Fire (type : string) (data : list (string * string))
| FireError (err : Error)
| ClearTiles (sourceCache : nat)
| PostTurnstileEvent (tiles : Value)
| Send (actor : Actor) (type : string) (payload : Payload)
       (callback : option Continuation) (mustQueue : bool)
| NetworkFetch (key : string)
| CancelFetch (key : string)
| CancelMessage (message : nat)
| SetExpiryData (tile : nat) (data : TileResult)
| LoadVectorData (tile : nat) (data : option TileResult)
| UnloadVectorData (tile : nat)
| CacheEntryPossiblyAdded
| Invoke (callback : Callback) (err : option Error).

(** The collaborators whose code is elsewhere: tile identifiers, the
    [Tile] class, the dispatcher's choice of a worker, and the browser. *)
Class Collaborators : Type := {
  canonical_url : TileID -> Value -> Value -> Value -> string;
  scaledTileSize : Value -> TileID -> Value;
  devicePixelRatio : Z;
  getActor : nat -> Actor * nat;
  setExpiryData : Tile.t -> TileResult -> Tile.t;
  loadVectorData : Tile.t -> option TileResult -> Tile.t;
  unloadVectorData : Tile.t -> Tile.t;
  contains : Value * Value * Value -> Z * Z * Z -> bool;
}.

(** [this.dispatcher] *)
Record Dispatcher : Type := {
  ready : bool;
  cursor : nat;
}.

(** [this.map], as far as this code looks into it. *)
Record Map : Type := {
  map_showCollisionBoxes : bool;
  _refreshExpiredTiles : bool;
  _customAccessToken : Value;
  sourceCaches : list nat;
}.

(** Modelled from the spec: [DedupedRequest] of vector_tile_worker_source.js
    is not part of the sources at hand.  "Deduplication Entry: keyed by
    request URL; holds the set of waiting callbacks and the single
    in-flight fetch handle." *)
Record DedupedRequest : Type := {
  entries : gmap string (list (nat * Continuation));
  next_waiter : nat;
}.

Definition new_DedupedRequest : DedupedRequest :=
  {| entries := ∅; next_waiter := 0%nat |}.

Module VectorTileSource.
(** The source object.  Its descriptor properties are assigned with
    [extend], so they are kept as a dictionary ([props]); the private
    fields can not be named by what [extend] copies (the picked option
    names and the fields of a loaded TileJSON) and are fields here. *)
Record t : Type := {
  id : string;
  props : JSObject;
  _options : JSObject;
  _collectResourceTiming : Value;
  tileBounds : option (Value * Value * Value);
  _tileJSONRequest : option LoadTileJSON.Cancelable;
  _loaded : bool;
  _tileWorkers : gmap string Actor;
  _deduped : DedupedRequest;
}.
End VectorTileSource.

(** ** The world that the source runs in *)

(** Everything the methods of the source read or change: the source
    itself, its map and dispatcher, the tasks the browser holds for it, the
    tile objects (by reference) and the calls made so far. *)
Record World : Type := {
  this : VectorTileSource.t;
  the_map : Map;
  dispatcher : Dispatcher;
  browser : LoadTileJSON.Browser unit;
  heap : gmap nat Tile.t;
  trace : list Event;
}.

Definition with_this (s : VectorTileSource.t) (w : World) : World :=
  {| this := s; the_map := the_map w; dispatcher := dispatcher w;
     browser := browser w; heap := heap w; trace := trace w |}.

Definition with_dispatcher (d : Dispatcher) (w : World) : World :=
  {| this := this w; the_map := the_map w; dispatcher := d;
     browser := browser w; heap := heap w; trace := trace w |}.

Definition with_browser (b : LoadTileJSON.Browser unit) (w : World) : World :=
  {| this := this w; the_map := the_map w; dispatcher := dispatcher w;
     browser := b; heap := heap w; trace := trace w |}.

Definition with_heap (h : gmap nat Tile.t) (w : World) : World :=
  {| this := this w; the_map := the_map w; dispatcher := dispatcher w;
     browser := browser w; heap := h; trace := trace w |}.

Definition with_trace (t : list Event) (w : World) : World :=
  {| this := this w; the_map := the_map w; dispatcher := dispatcher w;
     browser := browser w; heap := heap w; trace := t |}.

Import VectorTileSource.

Definition with_props (p : JSObject) (w : World) : World :=
  let s := this w in
  with_this {| id := id s; props := p; _options := _options s;
               _collectResourceTiming := _collectResourceTiming s;
               tileBounds := tileBounds s;
               _tileJSONRequest := _tileJSONRequest s;
               _loaded := _loaded s; _tileWorkers := _tileWorkers s;
               _deduped := _deduped s |} w.

Definition with_options (o : JSObject) (w : World) : World :=
  let s := this w in
  with_this {| id := id s; props := props s; _options := o;
               _collectResourceTiming := _collectResourceTiming s;
               tileBounds := tileBounds s;
               _tileJSONRequest := _tileJSONRequest s;
               _loaded := _loaded s; _tileWorkers := _tileWorkers s;
               _deduped := _deduped s |} w.

Definition with_tileBounds (b : option (Value * Value * Value)) (w : World)
  : World :=
  let s := this w in
  with_this {| id := id s; props := props s; _options := _options s;
               _collectResourceTiming := _collectResourceTiming s;
               tileBounds := b;
               _tileJSONRequest := _tileJSONRequest s;
               _loaded := _loaded s; _tileWorkers := _tileWorkers s;
               _deduped := _deduped s |} w.

Definition with_tileJSONRequest (q : option LoadTileJSON.Cancelable)
    (w : World) : World :=
  let s := this w in
  with_this {| id := id s; props := props s; _options := _options s;
               _collectResourceTiming := _collectResourceTiming s;
               tileBounds := tileBounds s;
               _tileJSONRequest := q;
               _loaded := _loaded s; _tileWorkers := _tileWorkers s;
               _deduped := _deduped s |} w.

Definition with_loaded (l : bool) (w : World) : World :=
  let s := this w in
  with_this {| id := id s; props := props s; _options := _options s;
               _collectResourceTiming := _collectResourceTiming s;
               tileBounds := tileBounds s;
               _tileJSONRequest := _tileJSONRequest s;
               _loaded := l; _tileWorkers := _tileWorkers s;
               _deduped := _deduped s |} w.

Definition with_tileWorkers (tw : gmap string Actor) (w : World) : World :=
  let s := this w in
  with_this {| id := id s; props := props s; _options := _options s;
               _collectResourceTiming := _collectResourceTiming s;
               tileBounds := tileBounds s;
               _tileJSONRequest := _tileJSONRequest s;
               _loaded := _loaded s; _tileWorkers := tw;
               _deduped := _deduped s |} w.

Definition with_deduped (d : DedupedRequest) (w : World) : World :=
  let s := this w in
  with_this {| id := id s; props := props s; _options := _options s;
               _collectResourceTiming := _collectResourceTiming s;
               tileBounds := tileBounds s;
               _tileJSONRequest := _tileJSONRequest s;
               _loaded := _loaded s; _tileWorkers := _tileWorkers s;
               _deduped := d |} w.

(** A call on a collaborator. *)
Definition log (e : Event) (w : World) : World :=
  with_trace (trace w ++ [e]) w.

(** Writing through a tile reference. *)
Definition store (r : nat) (tile : Tile.t) (w : World) : World :=
  with_heap (<[r := tile]> (heap w)) w.

(** ** vector_tile_source.js: construction *)

Definition defaults : JSObject :=
  <["isTileClipped" := VBool true]>
    (<["reparseOverscaled" := VBool true]>
       (<["zoomoffset" := VNum 0]>
          (<["tileSize" := VNum 512]>
             (<["scheme" := VStr "xyz"]>
                (<["maxzoom" := VNum 22]>
                   (<["minzoom" := VNum 0]>
                      (<["type" := VStr "vector"]> ∅))))))).

(** The constructor (lines 76-104).  The dispatcher it is given is the
    [dispatcher] of the world; event parents are not modelled. *)
Definition constructor (id : string) (options : JSObject)
  : Completion VectorTileSource.t :=
  let props :=
    extend defaults
           (pick options ["url"; "scheme"; "tileSize"; "promoteId"; "zoomoffset"]) in
  if negb (is_number (prop props "tileSize") 512) then
    Throw "vector tile sources must have a tileSize of 512"
  else
    Normal {| id := id;
              props := props;
              _options := extend {["type" := VStr "vector"]} options;
              _collectResourceTiming := prop options "collectResourceTiming";
              tileBounds := None;
              _tileJSONRequest := None;
              _loaded := false;
              _tileWorkers := ∅;
              _deduped := new_DedupedRequest |}.

Section Source.
Context `{RequestManager} `{Collaborators}.

(** ** vector_tile_source.js: the metadata life cycle *)

(** The arrow function that [load] gives to [loadTileJSON] (lines
    109-125), applied to what [loaded] delivers. *)
Definition load_callback (d : LoadTileJSON.Delivery) (w : World) : World :=
  let w := with_tileJSONRequest None w in
  let w := with_loaded true w in
  match d with
  | LoadTileJSON.CallbackError err => log (FireError err) w
  | LoadTileJSON.CallbackResult tileJSON =>
      let w := with_props (extend (props (this w)) tileJSON) w in
      let w :=
        if truthy (prop tileJSON "bounds") then
          with_tileBounds (Some (prop tileJSON "bounds",
                                 prop (props (this w)) "minzoom",
                                 prop (props (this w)) "maxzoom")) w
        else w in
      let w := log (PostTurnstileEvent (prop tileJSON "tiles")) w in
      let w := log (Fire "data" [("dataType", "source");
                                 ("sourceDataType", "metadata")]) w in
      log (Fire "data" [("dataType", "source");
                        ("sourceDataType", "content")]) w
  end.

Definition load (w : World) : World :=
  let w := with_loaded false w in
  let w := log (Fire "dataloading" [("dataType", "source")]) w in
  let '(handle, b) :=
    LoadTileJSON.loadTileJSON (_options (this w)) tt (browser w) in
  with_tileJSONRequest (Some handle) (with_browser b w).

Definition loaded (w : World) : bool := _loaded (this w).

(** [onAdd(map)]: the map is the [the_map] of the world. *)
Definition onAdd (w : World) : World := load w.

Definition hasTile (w : World) (tileID : TileID) : bool :=
  match tileBounds (this w) with
  | None => true
  | Some bounds => contains bounds (canonical tileID)
  end.

(** The two closures that are given to [setSourceProperty]. *)
Inductive PropertyChange : Type :=
| TilesChange (tiles : list string)
| UrlChange (url : string).

Definition apply_change (c : PropertyChange) (w : World) : World :=
  match c with
  | TilesChange tiles =>
      with_options (<["tiles" := VArr (VStr <$> tiles)]> (_options (this w))) w
  | UrlChange url =>
      let w := with_props (<["url" := VStr url]> (props (this w))) w in
      with_options (<["url" := VStr url]> (_options (this w))) w
  end.

Definition setSourceProperty (callback : PropertyChange) (w : World)
  : World :=
  let w :=
    match _tileJSONRequest (this w) with
    | Some request => with_browser (LoadTileJSON.cancel request (browser w)) w
    | None => w
    end in
  let w := apply_change callback w in
  let w := foldl (fun w sourceCache => log (ClearTiles sourceCache) w)
                 w (sourceCaches (the_map w)) in
  load w.

Definition setTiles (tiles : list string) (w : World) : World :=
  setSourceProperty (TilesChange tiles) w.

Definition setUrl (url : string) (w : World) : World :=
  setSourceProperty (UrlChange url) w.

Definition onRemove (w : World) : World :=
  match _tileJSONRequest (this w) with
  | Some request =>
      with_tileJSONRequest None
        (with_browser (LoadTileJSON.cancel request (browser w)) w)
  | None => w
  end.

Definition serialize (w : World) : JSObject := extend ∅ (_options (this w)).


(** The browser completes a task of the source: the response of the
    metadata fetch arrives, or the animation frame comes.  An exception in
    [loaded] ends the task without a call of the callback. *)
Definition json_response (h : LoadTileJSON.Cancelable) (err : option Error)
    (tileJSON : option JSObject) (w : World) : World :=
  match LoadTileJSON.respond h err tileJSON (browser w) with
  | (b, Some (_, Normal (Some d))) => load_callback d (with_browser b w)
  | (b, _) => with_browser b w
  end.

Definition next_frame (h : LoadTileJSON.Cancelable) (w : World) : World :=
  match LoadTileJSON.animation_frame h (browser w) with
  | (b, Some (_, Normal (Some d))) => load_callback d (with_browser b w)
  | (b, _) => with_browser b w
  end.

(** ** vector_tile_source.js: tiles *)

(** [actor.send(type, payload, callback, undefined, mustQueue)]: the
    message is recorded, and the handle that is returned names it. *)
Definition send (a : Actor) (type : string) (payload : Payload)
    (callback : option Continuation) (mustQueue : bool) (w : World)
  : Request * World :=
  (Sent (length (trace w)), log (Send a type payload callback mustQueue) w).

(** Modelled from the spec: [loadVectorTile] of vector_tile_worker_source.js
    is not part of the sources at hand.  It asks the deduplication table,
    "keyed by the final tile URL": "If key has no active entry, starts
    fetchFn, stores the handle, and registers the callback as sole waiter.
    If an entry exists, appends callback to the waiter set".  The handle
    that is returned cancels this waiter. *)
Definition loadVectorTile (params : Params.t) (callback : Continuation)
    (w : World) : Request * World :=
  let key := url (Params.request params) in
  let deduped := _deduped (this w) in
  let waiter := next_waiter deduped in
  match entries deduped !! key with
  | None =>
      (InlineFetch key waiter,
       log (NetworkFetch key)
           (with_deduped
              {| entries := <[key := [(waiter, callback)]]> (entries deduped);
                 next_waiter := S waiter |} w))
  | Some waiters =>
      (InlineFetch key waiter,
       with_deduped
         {| entries := <[key := (waiters ++ [(waiter, callback)])%list]> (entries deduped);
            next_waiter := S waiter |} w)
  end.

Definition has_actor (tile : Tile.t) : bool :=
  match Tile.actor tile with
  | Some _ => true
  | None => false
  end.

(** The first lines of [loadTile]: the tile URL and the message payload. *)
Definition tile_url (w : World) (tile : Tile.t) : string :=
  normalizeTileURL
    (canonical_url (Tile.tileID tile)
                   (prop (props (this w)) "tiles")
                   (prop (props (this w)) "scheme")
                   (prop (props (this w)) "zoomoffset")).

Definition tile_params (w : World) (tile : Tile.t) : Params.t :=
  {| Params.request :=
       {| url := transformRequest (tile_url w tile) ResourceTile;
          collectResourceTiming := _collectResourceTiming (this w) |};
     Params.data := None;
     Params.uid := Tile.uid tile;
     Params.tileID := Tile.tileID tile;
     Params.tileZoom := Tile.tileZoom tile;
     Params.zoom := overscaledZ (Tile.tileID tile);
     Params.tileSize :=
       scaledTileSize (prop (props (this w)) "tileSize") (Tile.tileID tile);
     Params.type := prop (props (this w)) "type";
     Params.source := id (this w);
     Params.pixelRatio := devicePixelRatio;
     Params.showCollisionBoxes := map_showCollisionBoxes (the_map w);
     Params.promoteId := prop (props (this w)) "promoteId";
     Params.isSymbolTile := Tile.isSymbolTile tile |}.

(** [this._tileWorkers[url] || this.dispatcher.getActor()] *)
Definition assigned_actor (url : string) (w : World) : Actor * World :=
  match _tileWorkers (this w) !! url with
  | Some a => (a, w)
  | None =>
      let '(a, c) := getActor (cursor (dispatcher w)) in
      (a, with_dispatcher {| ready := ready (dispatcher w); cursor := c |} w)
  end.

(** [loadTile(tile, callback)] up to the declaration of [done] (lines
    195-247); [r] is the reference of the tile. *)
Definition loadTile (w : World) (r : nat) (callback : Callback) : World :=
  match heap w !! r with
  | None => w
  | Some tile =>
      let url := tile_url w tile in
      let params := tile_params w tile in
      if negb (has_actor tile) || String.eqb (Tile.state tile) "expired" then
        let '(a, w) := assigned_actor url w in
        let w := with_tileWorkers (<[url := a]> (_tileWorkers (this w))) w in
        let tile := Tile.set_actor (Some a) tile in
        if negb (ready (dispatcher w)) then
          let '(cancel, w) :=
            loadVectorTile params (Fetched r callback params) w in
          store r (Tile.set_request (Some cancel) tile) w
        else
          let '(request, w) :=
            send a "loadTile" (TileParams params) (Some (Done r callback))
                 true w in
          store r (Tile.set_request (Some request) tile) w
      else if String.eqb (Tile.state tile) "loading" then
        (* schedule tile reloading after it has been loaded *)
        store r (Tile.set_reloadCallback (Some callback) tile) w
      else
        match Tile.actor tile with
        | Some a =>
            let '(request, w) :=
              send a "reloadTile" (TileParams params) (Some (Done r callback))
                   false w in
            store r (Tile.set_request (Some request) tile) w
        | None => w
        end
  end.

(** [err && err.status !== 404] *)
Definition fatal (err : option Error) : bool :=
  match err with
  | Some e =>
      match status e with
      | Some s => negb (s =? 404)
      | None => true
      end
  | None => false
  end.

(** Calling a method of the tile behind the reference [r]. *)
Definition on_tile (r : nat) (method : Tile.t -> Tile.t) (w : World)
  : World :=
  match heap w !! r with
  | Some tile => store r (method tile) w
  | None => w
  end.

(** The inner function [done] (lines 249-273) of the call
    [loadTile(tile, callback)]. *)
Definition done (w : World) (r : nat) (callback : Callback)
    (err : option Error) (data : option TileResult) : World :=
  match heap w !! r with
  | None => w
  | Some tile =>
      let w := store r (Tile.set_request None tile) w in
      if Tile.aborted tile then log (Invoke callback None) w
      else if fatal err then log (Invoke callback err) w
      else
        let w :=
          match data with
          | Some d =>
              match resourceTiming d with
              | Some timing => on_tile r (Tile.set_resourceTiming (Some timing)) w
              | None => w
              end
          | None => w
          end in
        let w :=
          match data with
          | Some d =>
              if _refreshExpiredTiles (the_map w) then
                log (SetExpiryData r d) (on_tile r (fun t => setExpiryData t d) w)
              else w
          | None => w
          end in
        let w := log (LoadVectorData r data)
                     (on_tile r (fun t => loadVectorData t data) w) in
        let w := log CacheEntryPossiblyAdded w in
        let w := log (Invoke callback None) w in
        match heap w !! r with
        | Some tile =>
            match Tile.reloadCallback tile with
            | Some reloadCallback =>
                on_tile r (Tile.set_reloadCallback None)
                        (loadTile w r reloadCallback)
            | None => w
            end
        | None => w
        end
  end.

(** The arrow function that the cold path gives to [loadVectorTile]
    (lines 222-234). *)
Definition fetched (w : World) (r : nat) (callback : Callback)
    (params : Params.t) (err : option Error) (data : option TileResult)
  : World :=
  match err, data with
  | None, Some d =>
      (* the worker will skip the network request if the data is already there *)
      let params :=
        Params.set_data (Some {| fd_cacheControl := cacheControl d;
                                 fd_expires := expires d;
                                 fd_rawData := rawData d |}) params in
      match heap w !! r with
      | Some tile =>
          match Tile.actor tile with
          | Some a =>
              snd (send a "loadTile" (TileParams params)
                        (Some (Done r callback)) true w)
          | None => w
          end
      | None => w
      end
  | _, _ => done w r callback err None
  end.

(** A function that was handed out is called back. *)
Definition resume (k : Continuation) (err : option Error)
    (data : option TileResult) (w : World) : World :=
  match k with
  | Done r callback => done w r callback err data
  | Fetched r callback params => fetched w r callback params err data
  end.

(** Modelled from the spec: the completion of a fetch of the deduplication
    table.  "On fetch completion (success or error), delivers the result to
    every current waiter exactly once, then discards the entry." *)
Definition fetch_completes (key : string) (err : option Error)
    (data : option TileResult) (w : World) : World :=
  match entries (_deduped (this w)) !! key with
  | None => w
  | Some waiters =>
      let w := foldl (fun w waiter => resume (snd waiter) err data w)
                     w waiters in
      with_deduped {| entries := delete key (entries (_deduped (this w)));
                      next_waiter := next_waiter (_deduped (this w)) |} w
  end.

(** Modelled from the spec: the [cancel] of a request handle.  For a waiter
    of the deduplication table it "only removes this specific waiter (does
    not cancel the underlying fetch unless it was the last waiter)". *)
Definition cancel (request : Request) (w : World) : World :=
  match request with
  | Sent message => log (CancelMessage message) w
  | InlineFetch key waiter =>
      let deduped := _deduped (this w) in
      match entries deduped !! key with
      | None => w
      | Some waiters =>
          match filter (fun x => fst x ≠ waiter) waiters with
          | [] =>
              log (CancelFetch key)
                  (with_deduped {| entries := delete key (entries deduped);
                                   next_waiter := next_waiter deduped |} w)
          | rest =>
              with_deduped {| entries := <[key := rest]> (entries deduped);
                              next_waiter := next_waiter deduped |} w
          end
      end
  end.

Definition abortTile (r : nat) (w : World) : World :=
  match heap w !! r with
  | None => w
  | Some tile =>
      let w :=
        match Tile.request tile with
        | Some request =>
            store r (Tile.set_request None tile) (cancel request w)
        | None => w
        end in
      match Tile.actor tile with
      | Some a =>
          snd (send a "abortTile"
                    (TileRef (Tile.uid tile) (prop (props (this w)) "type")
                             (id (this w)))
                    None false w)
      | None => w
      end
  end.

Definition unloadTile (r : nat) (w : World) : World :=
  match heap w !! r with
  | None => w
  | Some tile =>
      let w := log (UnloadVectorData r) (store r (unloadVectorData tile) w) in
      match Tile.actor (unloadVectorData tile) with
      | Some a =>
          snd (send a "removeTile"
                    (TileRef (Tile.uid (unloadVectorData tile))
                             (prop (props (this w)) "type") (id (this w)))
                    None false w)
      | None => w
      end
  end.

Definition hasTransition : bool := false.

End Source.

(** ** A concrete setting *)

(** Collaborators to run the code with: URLs are passed through unchanged,
    the tile URL is the first template, workers are handed out in turn, and
    the tile is ['loaded'] once its data are materialized. *)
Module Sample.

Definition manager : RequestManager :=
  {| normalizeSourceURL := fun v => match v with VStr s => s | _ => "" end;
     normalizeTileURL := fun s => s;
     transformRequest := fun s _ => s;
     canonicalizeTileset := fun tileJSON _ => prop tileJSON "tiles" |}.

Definition collaborators : Collaborators :=
  {| canonical_url := fun _ tiles _ _ =>
       match tiles with
       | VArr (VStr template :: _) => template
       | _ => ""
       end;
     scaledTileSize := fun v _ => v;
     devicePixelRatio := 1;
     getActor := fun c => (c, S c);
     setExpiryData := fun t _ => t;
     loadVectorData := fun t _ => Tile.set_state "loaded" t;
     unloadVectorData := fun t => Tile.set_state "unloaded" t;
     contains := fun _ _ => true |}.

Definition options : JSObject :=
  <["tiles" := VArr [VStr "https://tiles.example/{z}/{x}/{y}.mvt"]]> ∅.

Definition source : VectorTileSource.t :=
  match constructor "streets" options with
  | Normal s => s
  | Throw _ =>
      {| id := ""; props := ∅; _options := ∅;
         _collectResourceTiming := VUndefined; tileBounds := None;
         _tileJSONRequest := None; _loaded := false; _tileWorkers := ∅;
         _deduped := new_DedupedRequest |}
  end.

Definition tile (state : string) (actor : option Actor)
    (request : option Request) (aborted : bool)
    (reloadCallback : option Callback) : Tile.t :=
  {| Tile.uid := 1%nat;
     Tile.tileID := {| overscaledZ := 3; canonical := (3, 1, 2) |};
     Tile.tileZoom := 3;
     Tile.isSymbolTile := false;
     Tile.state := state;
     Tile.actor := actor;
     Tile.request := request;
     Tile.aborted := aborted;
     Tile.reloadCallback := reloadCallback;
     Tile.resourceTiming := None |}.

Definition blank : World :=
  {| this := source;
     the_map := {| map_showCollisionBoxes := false;
                   _refreshExpiredTiles := true;
                   _customAccessToken := VUndefined;
                   sourceCaches := [0%nat; 1%nat] |};
     dispatcher := {| ready := true; cursor := 0%nat |};
     browser := LoadTileJSON.no_tasks;
     heap := ∅;
     trace := [] |}.

(** A world with the one tile [t] behind reference [0]; the source has its
    tile templates already. *)
Definition world (ready : bool) (t : Tile.t) : World :=
  {| this := this (with_props (extend (props source) options) blank);
     the_map := the_map blank;
     dispatcher := {| ready := ready; cursor := 0%nat |};
     browser := LoadTileJSON.no_tasks;
     heap := {[0%nat := t]};
     trace := [] |}.

Definition not_found : Error := {| status := Some 404; message := "Not Found" |}.
Definition server_error : Error := {| status := Some 500; message := "Internal Server Error" |}.

(** Explicit options with a metadata URL, and a document as the server
    may answer it. *)
Definition explicit : JSObject :=
  <["minzoom" := VNum 3]>
    (<["url" := VStr "https://tiles.example/streets.json"]>
       (<["type" := VStr "vector"]> ∅)).


Definition some_data (timing : option ResourceTiming) : TileResult :=
  {| rawData := []; cacheControl := VStr "max-age=60"; expires := VUndefined;
     resourceTiming := timing |}.

End Sample.

(** ** The steps of a completion *)

Section Completion.
Context `{Collaborators}.

(** The tile as the completion leaves it before the callback is called
    (lines 259-263), and the calls on the tile on the way. *)
Definition materialized (w : World) (tile : Tile.t) (data : option TileResult)
  : Tile.t :=
  let t0 := Tile.set_request None tile in
  let t1 := match data with
            | Some d =>
                match resourceTiming d with
                | Some timing => Tile.set_resourceTiming (Some timing) t0
                | None => t0
                end
            | None => t0
            end in
  let t2 := match data with
            | Some d =>
                if _refreshExpiredTiles (the_map w) then setExpiryData t1 d
                else t1
            | None => t1
            end in
  loadVectorData t2 data.

Definition expiry_calls (w : World) (r : nat) (data : option TileResult)
  : list Event :=
  match data with
  | Some d => if _refreshExpiredTiles (the_map w) then [SetExpiryData r d] else []
  | None => []
  end.

(** The world in which the callback has just been called with [null]
    (line 267). *)
Definition delivered (w : World) (r : nat) (tile : Tile.t)
    (callback : Callback) (data : option TileResult) : World :=
  with_trace (trace w ++ expiry_calls w r data
                      ++ [LoadVectorData r data; CacheEntryPossiblyAdded;
                          Invoke callback None])%list
             (store r (materialized w tile data) w).

End Completion.

(** ** Answers of the workers *)

Section Answers.
Context `{RequestManager} `{Collaborators}.

(** Modelled from the spec: [Actor] of util/actor.js is not part of the
    sources at hand ("send(type, payload, callback) -> Cancelable").  The
    worker answers the message with the handle [message]: the callback
    that was sent along is called with the answer. *)
Definition reply (message : nat) (err : option Error)
    (data : option TileResult) (w : World) : World :=
  match trace w !! message with
  | Some (Send _ _ _ (Some k) _) => resume k err data w
  | _ => w
  end.

(** The answer to the call that was made last. *)
Definition answer_last (err : option Error) (data : option TileResult)
    (w : World) : World :=
  reply (pred (length (trace w))) err data w.

(** Two calls of [loadTile] for one tile that overlap: the second comes
    while the first is in flight; then the fetch of the cold path (if the
    dispatcher was not ready) brings [bytes], the worker answers the
    message of the first call, and then the message that is last by
    then. *)
Definition overlapping (w : World) (r : nat) (first second : Callback)
    (bytes : TileResult) (err1 : option Error) (data1 : option TileResult)
    (err2 : option Error) (data2 : option TileResult) : World :=
  let w1 := loadTile w r first in
  let w2 := loadTile w1 r second in
  let w3 :=
    if ready (dispatcher w) then w2
    else
      match heap w !! r with
      | Some tile =>
          fetch_completes (url (Params.request (tile_params w tile)))
                          None (Some bytes) w2
      | None => w2
      end in
  let w4 := answer_last err1 data1 w3 in
  answer_last err2 data2 w4.

End Answers.

(** ** Reading traces *)

(** The calls that were made between the world [w] and the later world
    [w']. *)
Definition new_events (w w' : World) : list Event :=
  drop (length (trace w)) (trace w').

Definition is_send (e : Event) : bool :=
  match e with
  | Send _ _ _ _ _ => true
  | _ => false
  end.


Definition is_invoke (e : Event) : bool :=
  match e with
  | Invoke _ _ => true
  | _ => false
  end.

Definition invokes (callback : Callback) (e : Event) : bool :=
  match e with
  | Invoke c _ => Nat.eqb c callback
  | _ => false
  end.

(** A call that makes the network fetch the bytes of a tile: a fetch that
    the deduplication table starts, or a [loadTile] message without data,
    which the worker answers by fetching.  A [loadTile] message with data
    is decoded only, and [reloadTile] works on what the worker has. *)
Definition causes_fetch (e : Event) : bool :=
  match e with
  | NetworkFetch _ => true
  | Send _ type (TileParams params) _ _ =>
      String.eqb type "loadTile" &&
      match Params.data params with
      | None => true
      | Some _ => false
      end
  | _ => false
  end.

Definition fetches (events : list Event) : nat :=
  length (filter (fun e => causes_fetch e = true) events).


(** What the coordinator needs of the [Tile] class for a reload to come
    through: its methods leave the actor, the reload slot and the abort
    mark alone, and a tile whose data were materialized is neither
    ['loading'] nor ['expired'] any more. *)
Record TileContract `{Collaborators} : Prop := {
  setExpiryData_keeps : forall t d,
    Tile.actor (setExpiryData t d) = Tile.actor t /\
    Tile.reloadCallback (setExpiryData t d) = Tile.reloadCallback t /\
    Tile.aborted (setExpiryData t d) = Tile.aborted t;
  loadVectorData_keeps : forall t d,
    Tile.actor (loadVectorData t d) = Tile.actor t /\
    Tile.reloadCallback (loadVectorData t d) = Tile.reloadCallback t /\
    Tile.aborted (loadVectorData t d) = Tile.aborted t;
  loadVectorData_settles : forall t d,
    Tile.state (loadVectorData t d) <> "loading" /\
    Tile.state (loadVectorData t d) <> "expired";
}.

(** ** The invariant of request handles *)

(** The handle that the source keeps was handed out by the browser. *)
Definition handles_allocated (w : World) : Prop :=
  forall h, _tileJSONRequest (this w) = Some h ->
            (h < LoadTileJSON.next_handle (browser w))%nat.

(** A task that is gone and whose handle was handed out before. *)
Definition stale (h : LoadTileJSON.Cancelable) (w : World) : Prop :=
  LoadTileJSON.pending (browser w) !! h = None /\
  (h < LoadTileJSON.next_handle (browser w))%nat.

(** What may happen to a source after it was added to the map. *)
Inductive Operation : Type :=
| CallSetUrl (url : string)
| CallSetTiles (tiles : list string)
| CallOnRemove
| Response (h : LoadTileJSON.Cancelable) (err : option Error)
           (tileJSON : option JSObject)
| AnimationFrame (h : LoadTileJSON.Cancelable).

Section Runs.
Context `{RequestManager} `{Collaborators}.

Definition step (w : World) (op : Operation) : World :=
  match op with
  | CallSetUrl url => setUrl url w
  | CallSetTiles tiles => setTiles tiles w
  | CallOnRemove => onRemove w
  | Response h err tileJSON => json_response h err tileJSON w
  | AnimationFrame h => next_frame h w
  end.

Definition run (ops : list Operation) (w : World) : World :=
  foldl step w ops.

End Runs.

(** The tile size that the constructor checks, in the words of its
    description: the explicit option if there is one, else 512. *)
Definition resolved_tileSize (options : JSObject) : Value :=
  default (VNum 512) (options !! "tileSize").

(** ** The wrapper of GeoJSON features (the file with the classes
    [FeatureWrapper] and [GeoJSONWrapper]) *)

(** What the wrapper takes from outside: the constant of data/extent.js
    and the two global functions that it applies to the [id] of a
    feature. *)
Class WrapperEnvironment : Type := {
  EXTENT : Z;
  isNaN : Value -> bool;
  parseInt : Value -> Z -> Value;
}.

(** [mvt] or [mvt_cgcs2000], the two decoders that [toGeoJSON] chooses
    between. *)
Inductive Decoder : Type :=
| Mvt
| MvtCgcs2000.

Module Feature.
(** The feature type of geojson-vt: a tagged union on [type], 1 with a
    list of points, 2 or 3 with a list of rings.  [id] is [None] when the
    feature has no [id] property.  The numbers of a geometry are only
    copied, so their type is left open. *)
Inductive PathType : Type :=
| Two
| Three.

Inductive t (Coord : Type) : Type :=
| Points (id : option Value) (tags : JSObject)
         (geometry : list (Coord * Coord))
| Paths (type : PathType) (id : option Value) (tags : JSObject)
        (geometry : list (list (Coord * Coord))).
Arguments Points {Coord} id tags geometry.
Arguments Paths {Coord} type id tags geometry.

Definition type {Coord : Type} (feature : t Coord) : Z :=
  match feature with
  | Points _ _ _ => 1
  | Paths Two _ _ _ => 2
  | Paths Three _ _ _ => 3
  end.

Definition id {Coord : Type} (feature : t Coord) : option Value :=
  match feature with
  | Points i _ _ => i
  | Paths _ i _ _ => i
  end.

Definition tags {Coord : Type} (feature : t Coord) : JSObject :=
  match feature with
  | Points _ g _ => g
  | Paths _ _ g _ => g
  end.
End Feature.

(** [Point] of @mapbox/point-geometry, as far as it is built here. *)
Record Point (Coord : Type) : Type := {
  x : Coord;
  y : Coord;
}.
Arguments Build_Point {Coord} x y.
Arguments x {Coord} _.
Arguments y {Coord} _.

Module FeatureWrapper.
Record t (Coord : Type) : Type := {
  _feature : Feature.t Coord;
  extent : Z;
  type : Z;
  properties : JSObject;
  id : option Value;
}.
Arguments _feature {Coord} _.
Arguments extent {Coord} _.
Arguments type {Coord} _.
Arguments properties {Coord} _.
Arguments id {Coord} _.

Section Methods.
Context {Coord : Type} `{WrapperEnvironment}.

(** The constructor (lines 33-49): the [id] is copied only if the feature
    has one that is not [NaN] as a number. *)
Definition constructor (feature : Feature.t Coord) : t Coord :=
  {| _feature := feature;
     extent := EXTENT;
     type := Feature.type feature;
     properties := Feature.tags feature;
     id := match Feature.id feature with
           | Some v => if negb (isNaN v) then Some (parseInt v 10) else None
           | None => None
           end |}.

(** [loadGeometry] (lines 51-69): the loops push at the end of the arrays
    they build. *)
Definition loadGeometry (w : t Coord) : list (list (Point Coord)) :=
  match _feature w with
  | Feature.Points _ _ points =>
      foldl (fun geometry point =>
               (geometry ++ [[Build_Point (fst point) (snd point)]])%list)
            [] points
  | Feature.Paths _ _ _ rings =>
      foldl (fun geometry ring =>
               (geometry ++
                [foldl (fun newRing point =>
                          (newRing ++ [Build_Point (fst point) (snd point)])%list)
                       [] ring])%list)
            [] rings
  end.

(** [toGeoJSON] (line 72) hands over to the decoder that the projection
    of util/constants.js selects. *)
Definition toGeoJSON_decoder (gl_projection : string) : Decoder :=
  if String.eqb gl_projection "EPSG:4326" then MvtCgcs2000 else Mvt.

End Methods.
End FeatureWrapper.

Module GeoJSONWrapper.
(** The wrapper is its own single layer; [layers] is the function below
    instead of a field that holds the wrapper itself. *)
Record t (Coord : Type) : Type := {
  name : string;
  extent : Z;
  length : Z;
  _features : list (Feature.t Coord);
}.
Arguments name {Coord} _.
Arguments extent {Coord} _.
Arguments length {Coord} _.
Arguments _features {Coord} _.

Section Methods.
Context {Coord : Type} `{WrapperEnvironment}.

(** The constructor (lines 83-89). *)
Definition constructor (features : list (Feature.t Coord)) : t Coord :=
  {| name := "_geojsonTileLayer";
     extent := EXTENT;
     length := Z.of_nat (List.length features);
     _features := features |}.

(** [this.layers[k]] *)
Definition layers (w : t Coord) (k : string) : option (t Coord) :=
  if String.eqb k "_geojsonTileLayer" then Some w else None.

(** [feature(i)] (lines 91-93): outside the array [this._features[i]] is
    [undefined], and the constructor of the feature wrapper throws when it
    reads [feature.type]. *)
Definition feature (w : t Coord) (i : Z)
  : Completion (FeatureWrapper.t Coord) :=
  if i <? 0 then Throw "TypeError"
  else
    match _features w !! Z.to_nat i with
    | Some f => Normal (FeatureWrapper.constructor f)
    | None => Throw "TypeError"
    end.

End Methods.
End GeoJSONWrapper.

(** The coordinate pairs of a geometry of points, ring by ring. *)
Definition pairs {Coord : Type} (geometry : list (list (Point Coord)))
  : list (list (Coord * Coord)) :=
  map (map (fun p => (x p, y p))) geometry.

(** ** More readings of traces *)

Definition is_materialization (e : Event) : bool :=
  match e with
  | LoadVectorData _ _ => true
  | _ => false
  end.

Definition is_expiry (e : Event) : bool :=
  match e with
  | SetExpiryData _ _ => true
  | _ => false
  end.

Definition is_fetch (e : Event) : bool :=
  match e with
  | NetworkFetch _ => true
  | _ => false
  end.

Definition count (p : Event -> bool) (events : list Event) : nat :=
  List.length (List.filter p events).

(** A source that holds a metadata request is not loaded. *)
Definition loading_while_requesting (w : World) : Prop :=
  forall h, _tileJSONRequest (this w) = Some h -> _loaded (this w) = false.

(** The names that [extend(this, tileJSON)] can bring: the recognized
    fields and the two derived layer fields. *)
Definition descriptor_fields : list string :=
  (LoadTileJSON.recognized ++ ["vectorLayers"; "vectorLayerIds"])%list.

(** What a completed metadata task may change of the world. *)
Definition descriptor_update (w w' : World) : Prop :=
  (forall k, k ∉ descriptor_fields ->
     props (this w') !! k = props (this w) !! k) /\
  (forall k, is_Some (props (this w) !! k) -> is_Some (props (this w') !! k)) /\
  (is_Some (tileBounds (this w)) -> is_Some (tileBounds (this w'))) /\
  id (this w') = id (this w) /\
  _options (this w') = _options (this w) /\
  _tileWorkers (this w') = _tileWorkers (this w) /\
  _deduped (this w') = _deduped (this w) /\
  heap w' = heap w /\
  dispatcher w' = dispatcher w.

(** ** More of the concrete setting *)

Module SampleMore.

(** A [Tile] class whose methods change nothing that this code reads. *)
Definition inert : Collaborators :=
  {| canonical_url := @canonical_url Sample.collaborators;
     scaledTileSize := fun v _ => v;
     devicePixelRatio := 1;
     getActor := fun c => (c, S c);
     setExpiryData := fun t _ => t;
     loadVectorData := fun t _ => t;
     unloadVectorData := fun t => t;
     contains := fun _ _ => true |}.

(** A source whose options have a metadata URL. *)
Definition url_source : World :=
  with_options Sample.explicit Sample.blank.

(** A second tile of the same source. *)
Definition two_tiles : World :=
  store 1 (Sample.tile "loading" None None false None)
        (Sample.world true (Sample.tile "loading" None None false None)).

End SampleMore.

(** * Properties *)

(** ** Merging and picking *)

Lemma extend_lookup (dest src : JSObject) (k : string) :
  extend dest src !! k =
  match src !! k with Some v => Some v | None => dest !! k end.
Proof.
  unfold extend. rewrite lookup_union.
  destruct (src !! k), (dest !! k); reflexivity.
Qed.


Lemma pick_acc_lookup (src : JSObject) (properties : list string)
      (acc : JSObject) (k : string) :
  foldl (fun result k =>
           match src !! k with
           | Some v => <[k := v]> result
           | None => result
           end) acc properties !! k =
  if decide (k ∈ properties)
  then match src !! k with Some v => Some v | None => acc !! k end
  else acc !! k.
Proof.
  revert acc. induction properties as [|p ps IH]; intros acc; cbn [foldl].
  - destruct (decide (k ∈ [])) as [Hin|_]; [|reflexivity].
    exfalso. revert Hin. apply not_elem_of_nil.
  - rewrite IH.
    destruct (decide (k ∈ ps)) as [Hps|Hps];
      destruct (decide (k ∈ p :: ps)) as [Hcons|Hcons].
    + destruct (src !! k) eqn:Hk; [reflexivity|].
      destruct (src !! p) as [v|] eqn:Hp; [|reflexivity].
      apply lookup_insert_ne. intros ->. congruence.
    + exfalso. apply Hcons. apply list_elem_of_further. exact Hps.
    + apply elem_of_cons in Hcons. destruct Hcons as [->|Hcons]; [|tauto].
      destruct (src !! p) as [v|]; [apply lookup_insert_eq | reflexivity].
    + destruct (src !! p) as [v|]; [|reflexivity].
      apply lookup_insert_ne. intros ->. apply Hcons. apply list_elem_of_here.
Qed.

Lemma pick_lookup (src : JSObject) (properties : list string) (k : string) :
  pick src properties !! k =
  if decide (k ∈ properties) then src !! k else None.
Proof.
  unfold pick. rewrite pick_acc_lookup, lookup_empty.
  destruct (decide (k ∈ properties)); [|reflexivity].
  destruct (src !! k); reflexivity.
Qed.

(** ** Construction *)

Lemma constructor_props_lookup (options : JSObject) (k : string) :
  extend defaults
         (pick options ["url"; "scheme"; "tileSize"; "promoteId"; "zoomoffset"])
    !! k =
  if decide (k ∈ ["url"; "scheme"; "tileSize"; "promoteId"; "zoomoffset"])
  then match options !! k with Some v => Some v | None => defaults !! k end
  else defaults !! k.
Proof.
  rewrite extend_lookup, pick_lookup.
  destruct (decide (k ∈ _)); [|reflexivity].
  destruct (options !! k); reflexivity.
Qed.

Ltac decide_member :=
  match goal with
  | |- context [decide (?k ∈ ?l)] =>
      let Hm := fresh "Hm" in
      destruct (decide (k ∈ l)) as [Hm|Hm];
      [ try solve [exfalso;
                   repeat (apply elem_of_cons in Hm; destruct Hm as [Hm|Hm];
                           [discriminate Hm|]);
                   revert Hm; apply not_elem_of_nil]
      | try solve [exfalso; apply Hm; repeat constructor] ]
  end.

(** C10: the constructor throws exactly when the resolved tile size (the
    explicit [tileSize] option if present, otherwise 512) is not 512; when
    it returns, [minzoom] is 0 and [maxzoom] is 22, [scheme] and
    [zoomoffset] have their defaults ['xyz'] and 0 unless the options name
    them, the worker-assignment table is empty and the deduplication table
    is new. *)
Theorem constructor_requires_tileSize_512 (name : string) (options : JSObject) :
  match constructor name options with
  | Throw _ => is_number (resolved_tileSize options) 512 = false
  | Normal s =>
      is_number (resolved_tileSize options) 512 = true /\
      props s !! "minzoom" = Some (VNum 0) /\
      props s !! "maxzoom" = Some (VNum 22) /\
      props s !! "scheme" = Some (default (VStr "xyz") (options !! "scheme")) /\
      props s !! "zoomoffset" = Some (default (VNum 0) (options !! "zoomoffset")) /\
      _tileWorkers s = ∅ /\
      _deduped s = new_DedupedRequest /\
      entries (_deduped s) = ∅
  end.
Proof.
  unfold constructor, resolved_tileSize.
  assert (Hsize :
    prop (extend defaults
            (pick options ["url"; "scheme"; "tileSize"; "promoteId"; "zoomoffset"]))
         "tileSize" = default (VNum 512) (options !! "tileSize")).
  { unfold prop. rewrite constructor_props_lookup. decide_member.
    destruct (options !! "tileSize"); reflexivity. }
  rewrite Hsize.
  destruct (is_number (default (VNum 512) (options !! "tileSize")) 512) eqn:Hn;
    simpl; [|reflexivity].
  repeat split; simpl.
  - rewrite constructor_props_lookup. decide_member. reflexivity.
  - rewrite constructor_props_lookup. decide_member. reflexivity.
  - rewrite constructor_props_lookup. decide_member.
    destruct (options !! "scheme"); reflexivity.
  - rewrite constructor_props_lookup. decide_member.
    destruct (options !! "zoomoffset"); reflexivity.
Qed.

(** ** The metadata loader *)

Section Loader.
Context `{RequestManager}.
Import LoadTileJSON.

Lemma with_vector_layers_lookup (tileJSON result result' : JSObject) (k : string) :
  with_vector_layers tileJSON result = Normal result' ->
  k <> "vectorLayers" -> k <> "vectorLayerIds" ->
  result' !! k = result !! k.
Proof.
  unfold with_vector_layers. intros Hr Hk1 Hk2.
  destruct (truthy (prop tileJSON "vector_layers")).
  - destruct (prop tileJSON "vector_layers"); try discriminate Hr.
    destruct (layer_ids items); [|discriminate Hr].
    injection Hr as <-.
    rewrite lookup_insert_ne by congruence.
    rewrite lookup_insert_ne by congruence. reflexivity.
  - injection Hr as <-. reflexivity.
Qed.




End Loader.

(** ** The metadata life cycle of the source *)

Section Lifecycle.
Context `{RequestManager} `{Collaborators}.
Import LoadTileJSON.

Lemma with_browser_same (w : World) : with_browser (browser w) w = w.
Proof. destruct w. reflexivity. Qed.

Lemma loadTileJSON_pending {K : Type} (options : JSObject) (callback : K)
    (b : Browser K) :
  fst (loadTileJSON options callback b) = next_handle b /\
  next_handle (snd (loadTileJSON options callback b)) = S (next_handle b) /\
  is_Some (pending (snd (loadTileJSON options callback b)) !! next_handle b) /\
  forall h, h <> next_handle b ->
    pending (snd (loadTileJSON options callback b)) !! h = pending b !! h.
Proof.
  unfold loadTileJSON. destruct (truthy (prop options "url")); simpl;
    (repeat split;
     [ rewrite lookup_insert_eq; eexists; reflexivity
     | intros h Hh; apply lookup_insert_ne; congruence ]).
Qed.

Lemma load_spec (w : World) :
  browser (load w) = snd (loadTileJSON (_options (this w)) tt (browser w)) /\
  _tileJSONRequest (this (load w)) = Some (next_handle (browser w)) /\
  _loaded (this (load w)) = false /\
  trace (load w) = (trace w ++ [Fire "dataloading" [("dataType", "source")]])%list /\
  the_map (load w) = the_map w.
Proof.
  unfold load.
  pose proof (loadTileJSON_pending (_options (this w)) tt (browser w))
    as [Hfst _].
  simpl in *.
  destruct (loadTileJSON (_options (this w)) tt (browser w)) as [h b] eqn:Hl.
  simpl in *. subst h. repeat split.
Qed.

Lemma clearTiles_spec (caches : list nat) (w : World) :
  let w' := foldl (fun w sourceCache => log (ClearTiles sourceCache) w) w caches in
  trace w' = (trace w ++ (ClearTiles <$> caches))%list /\
  this w' = this w /\ browser w' = browser w /\ the_map w' = the_map w.
Proof.
  revert w. induction caches as [|c cs IH]; intros w; simpl.
  - rewrite app_nil_r. repeat split.
  - destruct (IH (log (ClearTiles c) w)) as (Ht & Hthis & Hb & Hm).
    rewrite Ht, Hthis, Hb, Hm. simpl. rewrite <- app_assoc. repeat split.
Qed.

Lemma setSourceProperty_spec (c : PropertyChange) (w : World) :
  let w' := setSourceProperty c w in
  let b := match _tileJSONRequest (this w) with
           | Some request => cancel request (browser w)
           | None => browser w
           end in
  (exists options, browser w' = snd (loadTileJSON options tt b)) /\
  _tileJSONRequest (this w') = Some (next_handle (browser w)) /\
  _loaded (this w') = false /\
  trace w' = (trace w ++ (ClearTiles <$> sourceCaches (the_map w))
                      ++ [Fire "dataloading" [("dataType", "source")]])%list.
Proof.
  unfold setSourceProperty.
  set (w1 := match _tileJSONRequest (this w) with
             | Some request => with_browser (cancel request (browser w)) w
             | None => w
             end).
  set (w2 := apply_change c w1).
  pose proof (clearTiles_spec (sourceCaches (the_map w2)) w2) as Hc.
  simpl in Hc. destruct Hc as (Ht & Hthis & Hb & Hm).
  set (w3 := foldl (fun w sourceCache => log (ClearTiles sourceCache) w) w2
                   (sourceCaches (the_map w2))) in *.
  destruct (load_spec w3) as (Hlb & Hlr & Hll & Hlt & _).
  assert (Hb2 : browser w2 = match _tileJSONRequest (this w) with
                             | Some request => cancel request (browser w)
                             | None => browser w
                             end).
  { unfold w2, w1. destruct c, (_tileJSONRequest (this w)); reflexivity. }
  assert (Hm2 : the_map w2 = the_map w /\ trace w2 = trace w).
  { unfold w2, w1. destruct c, (_tileJSONRequest (this w)); split; reflexivity. }
  destruct Hm2 as [Hm2 Ht2].
  simpl. repeat split.
  - exists (_options (this w3)). rewrite Hlb, Hb, Hb2. reflexivity.
  - rewrite Hlr, Hb, Hb2. destruct (_tileJSONRequest (this w)); reflexivity.
  - exact Hll.
  - rewrite Hlt, Ht, Hm2, Ht2, <- app_assoc. reflexivity.
Qed.

Lemma load_callback_browser (d : Delivery) (w : World) :
  browser (load_callback d w) = browser w.
Proof.
  unfold load_callback. destruct d as [err|tileJSON]; [reflexivity|].
  simpl. destruct (truthy (prop tileJSON "bounds")); reflexivity.
Qed.

Lemma respond_browser {K : Type} (h : Cancelable) (err : option Error)
    (tileJSON : option JSObject) (b : Browser K) :
  fst (respond h err tileJSON b) = b \/ fst (respond h err tileJSON b) = cancel h b.
Proof.
  unfold respond. destruct (pending b !! h) as [[]|]; simpl; auto.
Qed.

Lemma animation_frame_browser {K : Type} (h : Cancelable) (b : Browser K) :
  fst (animation_frame h b) = b \/ fst (animation_frame h b) = cancel h b.
Proof.
  unfold animation_frame. destruct (pending b !! h) as [[]|]; simpl; auto.
Qed.

Lemma json_response_browser (h : Cancelable) (err : option Error)
    (tileJSON : option JSObject) (w : World) :
  browser (json_response h err tileJSON w) = fst (respond h err tileJSON (browser w)).
Proof.
  unfold json_response.
  destruct (respond h err tileJSON (browser w)) as [b [[k [[d|]|m]]|]];
    try reflexivity.
  apply load_callback_browser.
Qed.

Lemma next_frame_browser (h : Cancelable) (w : World) :
  browser (next_frame h w) = fst (animation_frame h (browser w)).
Proof.
  unfold next_frame.
  destruct (animation_frame h (browser w)) as [b [[k [[d|]|m]]|]];
    try reflexivity.
  apply load_callback_browser.
Qed.

Lemma stale_cancel (h h' : Cancelable) (b : Browser unit) :
  pending b !! h = None -> pending (cancel h' b) !! h = None.
Proof.
  intros Hp. simpl. rewrite lookup_delete. destruct (decide (h' = h)); auto.
Qed.

Lemma stale_step (h : Cancelable) (w : World) (op : Operation) :
  stale h w -> stale h (step w op).
Proof.
  intros [Hp Hlt]. unfold stale.
  assert (Hset : forall c, pending (browser (setSourceProperty c w)) !! h = None /\
                           (h < next_handle (browser (setSourceProperty c w)))%nat).
  { intros c. destruct (setSourceProperty_spec c w) as ((o & Hb) & _).
    rewrite Hb.
    set (b := match _tileJSONRequest (this w) with
              | Some request => cancel request (browser w)
              | None => browser w
              end).
    assert (Hb1 : pending b !! h = None /\ next_handle b = next_handle (browser w)).
    { unfold b. destruct (_tileJSONRequest (this w));
        split; auto using stale_cancel. }
    destruct Hb1 as [Hb1 Hb2].
    destruct (loadTileJSON_pending o tt b) as (_ & Hn & _ & Hother).
    rewrite Hn, Hb2, Hother by lia. split; [exact Hb1 | lia]. }
  destruct op as [url|tiles| |h' err tileJSON|h']; simpl.
  - apply Hset.
  - apply Hset.
  - unfold onRemove. destruct (_tileJSONRequest (this w)); simpl;
      [rewrite lookup_delete; destruct (decide (c = h)); auto | auto].
  - rewrite json_response_browser.
    destruct (respond_browser h' err tileJSON (browser w)) as [->| ->];
      auto using stale_cancel.
  - rewrite next_frame_browser.
    destruct (animation_frame_browser h' (browser w)) as [->| ->];
      auto using stale_cancel.
Qed.

Lemma stale_run (h : Cancelable) (ops : list Operation) (w : World) :
  stale h w -> stale h (run ops w).
Proof.
  revert w. induction ops as [|op ops IH]; intros w Hs; simpl; [exact Hs|].
  apply IH, stale_step, Hs.
Qed.

Lemma stale_no_delivery (h : Cancelable) (w : World) :
  pending (browser w) !! h = None ->
  (forall err tileJSON, json_response h err tileJSON w = w) /\
  next_frame h w = w.
Proof.
  intros Hp. split; [intros err tileJSON|].
  - unfold json_response, respond. rewrite Hp. apply with_browser_same.
  - unfold next_frame, animation_frame. rewrite Hp. apply with_browser_same.
Qed.

(** C8: [setUrl] and [setTiles] cancel the metadata request that the
    source holds, clear the tiles of every source cache of the source,
    and load again: the source is not loaded and holds a new pending
    request.  The task of the request that was superseded is gone for
    good: whatever happens later, its response or frame changes
    nothing. *)
Theorem setSourceProperty_supersedes (c : PropertyChange) (w : World) :
  handles_allocated w ->
  let w' := match c with
            | TilesChange tiles => setTiles tiles w
            | UrlChange url => setUrl url w
            end in
  trace w' = (trace w ++ (ClearTiles <$> sourceCaches (the_map w))
                      ++ [Fire "dataloading" [("dataType", "source")]])%list /\
  _loaded (this w') = false /\
  _tileJSONRequest (this w') = Some (next_handle (browser w)) /\
  is_Some (pending (browser w') !! next_handle (browser w)) /\
  handles_allocated w' /\
  forall h, _tileJSONRequest (this w) = Some h ->
    forall later,
      let w'' := run later w' in
      pending (browser w'') !! h = None /\
      (forall err tileJSON, json_response h err tileJSON w'' = w'') /\
      next_frame h w'' = w''.
Proof.
  intros Hwf w'.
  assert (Hw' : w' = setSourceProperty c w) by (destruct c; reflexivity).
  rewrite Hw'. clear w' Hw'.
  destruct (setSourceProperty_spec c w) as ((o & Hb) & Hr & Hl & Ht).
  set (b := match _tileJSONRequest (this w) with
            | Some request => cancel request (browser w)
            | None => browser w
            end) in *.
  assert (Hnb : next_handle b = next_handle (browser w)).
  { unfold b. destruct (_tileJSONRequest (this w)); reflexivity. }
  destruct (loadTileJSON_pending o tt b) as (_ & Hn & Hsome & Hother).
  split; [exact Ht|]. split; [exact Hl|]. split; [exact Hr|].
  split; [rewrite Hb, <- Hnb; exact Hsome|].
  split.
  - intros h Hh. rewrite Hr in Hh. injection Hh as <-.
    rewrite Hb, Hn, Hnb. lia.
  - intros h Hh later w''.
    assert (Hs : stale h (setSourceProperty c w)).
    { pose proof (Hwf h Hh) as Hlt. split.
      - rewrite Hb, Hother by lia. unfold b. rewrite Hh. simpl.
        apply lookup_delete_eq.
      - rewrite Hb, Hn, Hnb. lia. }
    destruct (stale_run h later _ Hs) as [Hp _].
    split; [exact Hp|]. apply stale_no_delivery, Hp.
Qed.

End Lifecycle.

(** ** Loading tiles *)

Section Tiles.
Context `{RequestManager} `{Collaborators}.

Lemma store_store (r : nat) (t1 t2 : Tile.t) (w : World) :
  store r t2 (store r t1 w) = store r t2 w.
Proof. unfold store, with_heap. simpl. rewrite insert_insert_eq. reflexivity. Qed.

Lemma store_lookup (r : nat) (t : Tile.t) (w : World) :
  heap (store r t w) !! r = Some t.
Proof. simpl. apply lookup_insert_eq. Qed.

(** The branch of line 241: the callback is put in the slot, nothing
    else happens. *)
Lemma loadTile_loading (w : World) (r : nat) (tile : Tile.t) (a : Actor)
    (callback : Callback) :
  heap w !! r = Some tile ->
  Tile.state tile = "loading" ->
  Tile.actor tile = Some a ->
  loadTile w r callback = store r (Tile.set_reloadCallback (Some callback) tile) w.
Proof.
  intros Hr Hs Ha. unfold loadTile, has_actor. rewrite Hr, Ha, Hs. reflexivity.
Qed.

(** The branch of line 245: a [reloadTile] message to the actor of the
    tile. *)
Lemma loadTile_reload (w : World) (r : nat) (tile : Tile.t) (a : Actor)
    (callback : Callback) :
  heap w !! r = Some tile ->
  Tile.actor tile = Some a ->
  Tile.state tile <> "loading" ->
  Tile.state tile <> "expired" ->
  loadTile w r callback =
  store r (Tile.set_request (Some (Sent (length (trace w)))) tile)
        (log (Send a "reloadTile" (TileParams (tile_params w tile))
                   (Some (Done r callback)) false) w).
Proof.
  intros Hr Ha Hl He. unfold loadTile, has_actor. rewrite Hr, Ha.
  apply String.eqb_neq in Hl, He. rewrite Hl, He. reflexivity.
Qed.

(** The branch of line 216 with a dispatcher that is ready. *)
Lemma loadTile_fresh_ready (w : World) (r : nat) (tile : Tile.t)
    (callback : Callback) :
  heap w !! r = Some tile ->
  has_actor tile = false \/ Tile.state tile = "expired" ->
  ready (dispatcher w) = true ->
  let a := fst (assigned_actor (tile_url w tile) w) in
  let w1 := snd (assigned_actor (tile_url w tile) w) in
  loadTile w r callback =
  store r (Tile.set_request (Some (Sent (length (trace w))))
                            (Tile.set_actor (Some a) tile))
        (log (Send a "loadTile" (TileParams (tile_params w tile))
                   (Some (Done r callback)) true)
             (with_tileWorkers (<[tile_url w tile := a]> (_tileWorkers (this w1)))
                               w1)).
Proof.
  intros Hr Hf Hready. unfold loadTile. rewrite Hr.
  assert (Hc : negb (has_actor tile) || String.eqb (Tile.state tile) "expired" = true).
  { destruct Hf as [-> | ->]; [reflexivity | apply orb_true_r]. }
  rewrite Hc. unfold assigned_actor.
  destruct (_tileWorkers (this w) !! tile_url w tile) as [a|]; simpl.
  - rewrite Hready. reflexivity.
  - destruct (getActor (cursor (dispatcher w))) as [a c]. simpl.
    rewrite Hready. reflexivity.
Qed.

(** The branch of line 216 with a dispatcher that is not ready: the fetch
    goes through the deduplication table and no message is sent. *)
Lemma loadTile_fresh_cold (w : World) (r : nat) (tile : Tile.t)
    (callback : Callback) :
  heap w !! r = Some tile ->
  has_actor tile = false \/ Tile.state tile = "expired" ->
  ready (dispatcher w) = false ->
  let a := fst (assigned_actor (tile_url w tile) w) in
  let w1 := snd (assigned_actor (tile_url w tile) w) in
  let w2 := with_tileWorkers (<[tile_url w tile := a]> (_tileWorkers (this w1))) w1 in
  let fetch := loadVectorTile (tile_params w tile)
                 (Fetched r callback (tile_params w tile)) w2 in
  loadTile w r callback =
  store r (Tile.set_request (Some (fst fetch)) (Tile.set_actor (Some a) tile))
        (snd fetch).
Proof.
  intros Hr Hf Hready. unfold loadTile. rewrite Hr.
  assert (Hc : negb (has_actor tile) || String.eqb (Tile.state tile) "expired" = true).
  { destruct Hf as [-> | ->]; [reflexivity | apply orb_true_r]. }
  rewrite Hc. unfold assigned_actor.
  destruct (_tileWorkers (this w) !! tile_url w tile) as [a|]; simpl.
  - rewrite Hready. simpl.
    destruct (loadVectorTile _ _ _) as [cancel w'] eqn:Hl. reflexivity.
  - destruct (getActor (cursor (dispatcher w))) as [a c]. simpl.
    rewrite Hready. simpl.
    destruct (loadVectorTile _ _ _) as [cancel w'] eqn:Hl. reflexivity.
Qed.

(** C2: while a tile is ['loading'] on the actor that its dispatch bound,
    further calls of [loadTile] send nothing and fetch nothing; each one
    puts its callback in the reload slot, so the slot of the tile reads
    the callback of the last call, and the request, the actor and the
    state of the tile read what they were: the request in flight stays
    the only one. *)
Theorem loadTile_while_loading (w : World) (r : nat) (tile : Tile.t)
    (a : Actor) (earlier : list Callback) (callback : Callback) :
  heap w !! r = Some tile ->
  Tile.state tile = "loading" ->
  Tile.actor tile = Some a ->
  let w' := foldl (fun w c => loadTile w r c) w (earlier ++ [callback]) in
  w' = store r (Tile.set_reloadCallback (Some callback) tile) w /\
  trace w' = trace w /\
  _deduped (this w') = _deduped (this w) /\
  heap w' !! r = Some (Tile.set_reloadCallback (Some callback) tile) /\
  Tile.request (Tile.set_reloadCallback (Some callback) tile) = Tile.request tile /\
  new_events w w' = [] /\
  (Tile.reloadCallback <$> (heap w' !! r)) = Some (Some callback) /\
  (Tile.request <$> (heap w' !! r)) = Some (Tile.request tile) /\
  (Tile.actor <$> (heap w' !! r)) = Some (Some a) /\
  (Tile.state <$> (heap w' !! r)) = Some "loading" /\
  (Tile.aborted <$> (heap w' !! r)) = Some (Tile.aborted tile) /\
  (forall r', r' <> r -> heap w' !! r' = heap w !! r').
Proof.
  intros Hr Hs Ha w'.
  assert (Hw' : w' = store r (Tile.set_reloadCallback (Some callback) tile) w).
  { unfold w'. clear w'. revert w tile Hr Hs Ha.
    induction earlier as [|c cs IH]; intros w tile Hr Hs Ha; simpl.
    - apply (loadTile_loading w r tile a); assumption.
    - rewrite (loadTile_loading w r tile a c Hr Hs Ha).
      rewrite (IH _ (Tile.set_reloadCallback (Some c) tile));
        [| apply store_lookup | exact Hs | exact Ha].
      rewrite store_store. reflexivity. }
  assert (Hh : heap w' !! r =
               Some (Tile.set_reloadCallback (Some callback) tile))
    by (rewrite Hw'; apply store_lookup).
  split; [exact Hw'|]. split; [rewrite Hw'; reflexivity|].
  split; [rewrite Hw'; reflexivity|]. split; [exact Hh|].
  split; [reflexivity|].
  split; [unfold new_events; rewrite Hw'; apply drop_all|].
  rewrite Hh. cbn [fmap option_fmap option_map].
  split; [reflexivity|]. split; [reflexivity|].
  split; [cbn [Tile.actor Tile.set_reloadCallback]; rewrite Ha; reflexivity|].
  split; [cbn [Tile.state Tile.set_reloadCallback]; rewrite Hs; reflexivity|].
  split; [reflexivity|].
  intros r' Hne. rewrite Hw'. unfold store. cbn [heap with_heap].
  apply lookup_insert_ne. congruence.
Qed.

(** *** The completion function *)

Lemma log_store (e : Event) (r : nat) (t : Tile.t) (w : World) :
  log e (store r t w) = with_trace (trace w ++ [e]) (store r t w).
Proof. reflexivity. Qed.

Lemma on_tile_store (r : nat) (f : Tile.t -> Tile.t) (t : Tile.t) (w : World) :
  on_tile r f (store r t w) = store r (f t) w.
Proof. unfold on_tile. rewrite store_lookup. apply store_store. Qed.

Lemma on_tile_log (r : nat) (f : Tile.t -> Tile.t) (e : Event) (w : World) :
  on_tile r f (log e w) = log e (on_tile r f w).
Proof.
  unfold on_tile. change (heap (log e w)) with (heap w).
  destruct (heap w !! r); reflexivity.
Qed.

Lemma on_tile_trace (r : nat) (f : Tile.t -> Tile.t) (w : World) :
  trace (on_tile r f w) = trace w.
Proof. unfold on_tile. destruct (heap w !! r); reflexivity. Qed.

Lemma log_with_trace (e : Event) (T : list Event) (w : World) :
  log e (with_trace T w) = with_trace (T ++ [e]) w.
Proof. reflexivity. Qed.

Lemma store_with_trace (r : nat) (t : Tile.t) (w : World) :
  store r t w = with_trace (trace w) (store r t w).
Proof. reflexivity. Qed.

Lemma with_trace_store_lookup (r : nat) (t : Tile.t) (T : list Event) (w : World) :
  heap (with_trace T (store r t w)) !! r = Some t.
Proof. apply store_lookup. Qed.

Lemma with_trace_same (w : World) : with_trace (trace w) w = w.
Proof. destruct w. reflexivity. Qed.

(** A completion for a tile that was aborted (line 252). *)
Lemma done_aborted (w : World) (r : nat) (tile : Tile.t) (callback : Callback)
    (err : option Error) (data : option TileResult) :
  heap w !! r = Some tile ->
  Tile.aborted tile = true ->
  done w r callback err data =
  log (Invoke callback None) (store r (Tile.set_request None tile) w).
Proof. intros Hr Ha. unfold done. rewrite Hr, Ha. reflexivity. Qed.

(** A completion with an error that is not a 404 (line 255). *)
Lemma done_fatal (w : World) (r : nat) (tile : Tile.t) (callback : Callback)
    (err : option Error) (data : option TileResult) :
  heap w !! r = Some tile ->
  Tile.aborted tile = false ->
  fatal err = true ->
  done w r callback err data =
  log (Invoke callback err) (store r (Tile.set_request None tile) w).
Proof. intros Hr Ha Hf. unfold done. rewrite Hr, Ha, Hf. reflexivity. Qed.

(** A completion without an error, or with a 404 (lines 259-272). *)
Lemma done_success (w : World) (r : nat) (tile : Tile.t) (callback : Callback)
    (err : option Error) (data : option TileResult) :
  heap w !! r = Some tile ->
  Tile.aborted tile = false ->
  fatal err = false ->
  done w r callback err data =
  match Tile.reloadCallback (materialized w tile data) with
  | Some reloadCallback =>
      on_tile r (Tile.set_reloadCallback None)
              (loadTile (delivered w r tile callback data) r reloadCallback)
  | None => delivered w r tile callback data
  end.
Proof.
  intros Hr Ha Hf. unfold done. rewrite Hr, Ha, Hf.
  unfold delivered, materialized, expiry_calls. cbv zeta.
  assert (Hmap : forall t, the_map (store r t w) = the_map w)
    by reflexivity.
  destruct data as [d|].
  - destruct (resourceTiming d) as [timing|];
      rewrite ?on_tile_store, !Hmap;
      (destruct (_refreshExpiredTiles (the_map w));
       rewrite ?on_tile_log, ?on_tile_store;
       rewrite (store_with_trace r), !log_with_trace;
       rewrite with_trace_store_lookup;
       rewrite <- ?app_assoc; reflexivity).
  - rewrite ?on_tile_log, ?on_tile_store.
    rewrite (store_with_trace r), !log_with_trace.
    rewrite with_trace_store_lookup.
    rewrite <- ?app_assoc. reflexivity.
Qed.

Lemma fatal_status (e : Error) :
  fatal (Some e) = true <-> status e <> Some 404.
Proof.
  unfold fatal. destruct (status e) as [s|].
  - destruct (Z.eqb_spec s 404) as [->|Hne]; simpl; split;
      solve [congruence | discriminate | reflexivity].
  - split; [discriminate | reflexivity].
Qed.

Lemma new_events_app (w w' : World) (added : list Event) :
  trace w' = (trace w ++ added)%list -> new_events w w' = added.
Proof. intros Ht. unfold new_events. rewrite Ht. apply drop_app_length. Qed.

(** [loadTile] only adds calls, at most one, and never calls a callback. *)
Lemma loadTile_trace (w : World) (r : nat) (callback : Callback) :
  exists added,
    trace (loadTile w r callback) = (trace w ++ added)%list /\
    Forall (fun e => is_invoke e = false) added.
Proof.
  unfold loadTile. destruct (heap w !! r) as [tile|];
    [|exists []; rewrite app_nil_r; split; [reflexivity | constructor]].
  destruct (negb (has_actor tile) || String.eqb (Tile.state tile) "expired").
  - unfold assigned_actor.
    destruct (_tileWorkers (this w) !! tile_url w tile) as [a|];
      [|destruct (getActor (cursor (dispatcher w))) as [a c]]; simpl;
      (destruct (ready (dispatcher w)); simpl;
       [ eexists; split; [reflexivity | repeat constructor]
       | unfold loadVectorTile; simpl;
         destruct (entries (_deduped (this w)) !! _); simpl;
         [ exists []; rewrite app_nil_r; split; [reflexivity | constructor]
         | eexists; split; [reflexivity | repeat constructor] ] ]).
  - destruct (String.eqb (Tile.state tile) "loading"); simpl.
    + exists []. rewrite app_nil_r. split; [reflexivity | constructor].
    + destruct (Tile.actor tile); simpl.
      * eexists. split; [reflexivity | repeat constructor].
      * exists []. rewrite app_nil_r. split; [reflexivity | constructor].
Qed.

(** [loadTile] keeps the tile in the heap. *)
Lemma loadTile_heap (w : World) (r : nat) (tile : Tile.t) (callback : Callback) :
  heap w !! r = Some tile ->
  exists tile', heap (loadTile w r callback) !! r = Some tile'.
Proof.
  intros Hr. unfold loadTile. rewrite Hr.
  destruct (negb (has_actor tile) || String.eqb (Tile.state tile) "expired").
  - destruct (assigned_actor _ _) as [a w1].
    destruct (negb (ready (dispatcher _))).
    + destruct (loadVectorTile _ _ _) as [cancel w2].
      eexists. apply store_lookup.
    + simpl. eexists. apply lookup_insert_eq.
  - destruct (String.eqb (Tile.state tile) "loading").
    + eexists. apply store_lookup.
    + destruct (Tile.actor tile); simpl.
      * eexists. apply lookup_insert_eq.
      * eexists. exact Hr.
Qed.

(** C4: a completion first clears the request handle of the tile, so it
    runs the same whether or not the handle was still there; for a tile
    that was aborted it then calls the callback with a null error and no
    result and stops: that call is the only new call, and nothing but the
    request handle of the tile has changed. *)
Theorem done_aborted_is_swallowed (w : World) (r : nat) (tile : Tile.t)
    (callback : Callback) (err : option Error) (data : option TileResult) :
  heap w !! r = Some tile ->
  done w r callback err data =
    done (store r (Tile.set_request None tile) w) r callback err data /\
  (Tile.aborted tile = true ->
   let w' := done w r callback err data in
   w' = log (Invoke callback None) (store r (Tile.set_request None tile) w) /\
   new_events w w' = [Invoke callback None] /\
   heap w' !! r = Some (Tile.set_request None tile) /\
   Tile.request (Tile.set_request None tile) = None /\
   this w' = this w /\ dispatcher w' = dispatcher w).
Proof.
  intros Hr. split.
  - unfold done. rewrite store_lookup, Hr, store_store. reflexivity.
  - intros Ha w'. unfold w'. rewrite (done_aborted w r tile) by assumption.
    repeat split.
    + apply new_events_app. reflexivity.
    + apply store_lookup.
Qed.

(** [loadTile] leaves the resource timing of the tile alone. *)
Lemma loadTile_resourceTiming (w : World) (r : nat) (tile : Tile.t)
    (callback : Callback) :
  heap w !! r = Some tile ->
  (Tile.resourceTiming <$> (heap (loadTile w r callback) !! r)) =
    Some (Tile.resourceTiming tile).
Proof.
  intros Hr. unfold loadTile. rewrite Hr.
  destruct (negb (has_actor tile) || String.eqb (Tile.state tile) "expired").
  - destruct (assigned_actor _ _) as [a w1].
    destruct (negb (ready (dispatcher _))).
    + destruct (loadVectorTile _ _ _) as [cancel w2].
      rewrite store_lookup. reflexivity.
    + simpl. rewrite lookup_insert_eq. reflexivity.
  - destruct (String.eqb (Tile.state tile) "loading").
    + rewrite store_lookup. reflexivity.
    + destruct (Tile.actor tile); simpl.
      * rewrite lookup_insert_eq. reflexivity.
      * rewrite Hr. reflexivity.
Qed.

(** The resource timing of the tile that lines 259-263 leave, when the
    two methods of the [Tile] class do not touch it. *)
Lemma materialized_resourceTiming (w : World) (tile : Tile.t)
    (data : option TileResult) :
  (forall t d, Tile.resourceTiming (setExpiryData t d) = Tile.resourceTiming t) ->
  (forall t d, Tile.resourceTiming (loadVectorData t d) = Tile.resourceTiming t) ->
  Tile.resourceTiming (materialized w tile data) =
  match data with
  | Some d => match resourceTiming d with
              | Some timing => Some timing
              | None => Tile.resourceTiming tile
              end
  | None => Tile.resourceTiming tile
  end.
Proof.
  intros He Hl. unfold materialized. cbv zeta. rewrite Hl.
  destruct data as [d|]; [|reflexivity].
  destruct (_refreshExpiredTiles (the_map w)); rewrite ?He;
    destruct (resourceTiming d); reflexivity.
Qed.

(** C1, as the code has it: on a tile that was not aborted an error other
    than a 404 goes to the callback and ends the completion with nothing
    else done: that call is the only new call and the resource timing of
    the tile reads what it was; a 404 does not go to the callback: the
    completion runs as one without an error, so the data (if any) are
    materialized, the callback is called with a null error, and the
    resource timing of the data, if they have one, is on the tile that
    [setExpiryData] and [loadVectorData] are called on; with a [Tile]
    class whose two methods leave the resource timing alone, the tile
    reads it after the completion. *)
Theorem done_error_unless_404 (w : World) (r : nat) (tile : Tile.t)
    (callback : Callback) (e : Error) (data : option TileResult) :
  heap w !! r = Some tile ->
  Tile.aborted tile = false ->
  (status e <> Some 404 ->
   done w r callback (Some e) data =
   log (Invoke callback (Some e)) (store r (Tile.set_request None tile) w) /\
   new_events w (done w r callback (Some e) data) =
     [Invoke callback (Some e)] /\
   (Tile.resourceTiming <$> (heap (done w r callback (Some e) data) !! r)) =
     Some (Tile.resourceTiming tile)) /\
  (status e = Some 404 ->
   done w r callback (Some e) data = done w r callback None data /\
   (exists after,
      new_events w (done w r callback (Some e) data) =
        (expiry_calls w r data
           ++ [LoadVectorData r data; CacheEntryPossiblyAdded;
               Invoke callback None] ++ after)%list /\
      Forall (fun ev => is_invoke ev = false) after) /\
   ((forall t d,
       Tile.resourceTiming (setExpiryData t d) = Tile.resourceTiming t) ->
    (forall t d,
       Tile.resourceTiming (loadVectorData t d) = Tile.resourceTiming t) ->
    (Tile.resourceTiming <$> (heap (done w r callback (Some e) data) !! r)) =
      Some (match data with
            | Some d => match resourceTiming d with
                        | Some timing => Some timing
                        | None => Tile.resourceTiming tile
                        end
            | None => Tile.resourceTiming tile
            end)) /\
   (exists timed,
      Tile.resourceTiming timed =
        match data with
        | Some d => match resourceTiming d with
                    | Some timing => Some timing
                    | None => Tile.resourceTiming tile
                    end
        | None => Tile.resourceTiming tile
        end /\
      Tile.request timed = None /\
      Tile.actor timed = Tile.actor tile /\
      Tile.state timed = Tile.state tile /\
      Tile.reloadCallback timed = Tile.reloadCallback tile /\
      let handed :=
        match data with
        | Some d =>
            if _refreshExpiredTiles (the_map w) then setExpiryData timed d
            else timed
        | None => timed
        end in
      (Tile.reloadCallback (loadVectorData handed data) = None ->
       heap (done w r callback (Some e) data) !! r =
         Some (loadVectorData handed data)))).
Proof.
  intros Hr Ha. split.
  - intros Hs.
    rewrite (done_fatal w r tile callback (Some e) data Hr Ha
               (proj2 (fatal_status e) Hs)).
    split; [reflexivity|]. split; [apply new_events_app; reflexivity|].
    unfold log. cbn [heap with_trace]. rewrite store_lookup. reflexivity.
  - intros Hs.
    assert (Hf : fatal (Some e) = false).
    { destruct (fatal (Some e)) eqn:Hf; [|reflexivity].
      apply fatal_status in Hf. congruence. }
    rewrite (done_success w r tile callback (Some e) data Hr Ha Hf).
    rewrite (done_success w r tile callback None data Hr Ha eq_refl).
    split; [reflexivity|].
    assert (Hd : heap (delivered w r tile callback data) !! r =
                 Some (materialized w tile data)) by apply store_lookup.
    split; [|split].
    + destruct (Tile.reloadCallback (materialized w tile data)) as [c2|].
      * destruct (loadTile_trace (delivered w r tile callback data) r c2)
          as (added & Ht & Hinv).
        exists added. split; [|exact Hinv].
        apply new_events_app.
        rewrite on_tile_trace, Ht. unfold delivered. cbn [trace with_trace].
        rewrite <- !app_assoc. reflexivity.
      * exists []. split; [|constructor].
        apply new_events_app. reflexivity.
    + intros He Hl.
      rewrite <- (materialized_resourceTiming w tile data He Hl).
      destruct (Tile.reloadCallback (materialized w tile data)) as [c2|].
      * pose proof (loadTile_resourceTiming _ r _ c2 Hd) as Ht.
        unfold on_tile.
        destruct (heap (loadTile (delivered w r tile callback data) r c2) !! r)
          as [t'|]; [|discriminate Ht].
        cbn [fmap option_fmap option_map] in Ht. injection Ht as Ht.
        rewrite store_lookup. cbn [fmap option_fmap option_map].
        cbn [Tile.resourceTiming Tile.set_reloadCallback].
        rewrite Ht. reflexivity.
      * rewrite Hd. reflexivity.
    + exists (match data with
              | Some d =>
                  match resourceTiming d with
                  | Some timing =>
                      Tile.set_resourceTiming (Some timing)
                                              (Tile.set_request None tile)
                  | None => Tile.set_request None tile
                  end
              | None => Tile.set_request None tile
              end).
      split; [destruct data as [d|]; [destruct (resourceTiming d)|];
              reflexivity|].
      split; [destruct data as [d|]; [destruct (resourceTiming d)|];
              reflexivity|].
      split; [destruct data as [d|]; [destruct (resourceTiming d)|];
              reflexivity|].
      split; [destruct data as [d|]; [destruct (resourceTiming d)|];
              reflexivity|].
      split; [destruct data as [d|]; [destruct (resourceTiming d)|];
              reflexivity|].
      intros handed Hq.
      change (loadVectorData handed data) with (materialized w tile data)
        in Hq |- *.
      rewrite Hq. exact Hd.
Qed.

(** *** Which branch a call takes *)

Lemma assigned_actor_keeps (u : string) (w : World) :
  let w1 := snd (assigned_actor u w) in
  this w1 = this w /\ trace w1 = trace w /\ heap w1 = heap w /\
  ready (dispatcher w1) = ready (dispatcher w).
Proof.
  unfold assigned_actor. destruct (_tileWorkers (this w) !! u); simpl.
  - repeat split.
  - destruct (getActor (cursor (dispatcher w))). repeat split.
Qed.

(** What the cold path leaves: the waiter in the table, at most the start
    of a fetch in the trace. *)
Lemma loadTile_cold_spec (w : World) (r : nat) (tile : Tile.t)
    (callback : Callback) :
  heap w !! r = Some tile ->
  has_actor tile = false \/ Tile.state tile = "expired" ->
  ready (dispatcher w) = false ->
  let w' := loadTile w r callback in
  let params := tile_params w tile in
  let key := url (Params.request params) in
  let waiter := next_waiter (_deduped (this w)) in
  trace w' =
    (trace w ++ match entries (_deduped (this w)) !! key with
                | None => [NetworkFetch key]
                | Some _ => []
                end)%list /\
  entries (_deduped (this w')) !! key =
    Some (default [] (entries (_deduped (this w)) !! key)
            ++ [(waiter, Fetched r callback params)])%list /\
  next_waiter (_deduped (this w')) = S waiter /\
  heap w' !! r =
    Some (Tile.set_request (Some (InlineFetch key waiter))
            (Tile.set_actor (Some (fst (assigned_actor (tile_url w tile) w))) tile)) /\
  the_map w' = the_map w.
Proof.
  intros Hr Hf Hready. simpl.
  rewrite (loadTile_fresh_cold w r tile callback Hr Hf Hready).
  destruct (assigned_actor_keeps (tile_url w tile) w) as (Hthis & Htrace & Hheap & _).
  assert (Hmap : the_map (snd (assigned_actor (tile_url w tile) w)) = the_map w).
  { unfold assigned_actor. destruct (_tileWorkers (this w) !! _); simpl;
      [reflexivity | destruct (getActor _); reflexivity]. }
  destruct (assigned_actor (tile_url w tile) w) as [a w1]. simpl in *.
  unfold loadVectorTile. simpl. rewrite Hthis.
  destruct (entries (_deduped (this w)) !! _) as [waiters|] eqn:He; simpl;
    rewrite ?lookup_insert_eq, ?Htrace, ?app_nil_r, ?Hmap; repeat split.
Qed.


Lemma fatal_is_error (err : option Error) : fatal err = true -> is_Some err.
Proof. destruct err; [eexists; reflexivity | discriminate]. Qed.

(** C5, as the code has it: with a dispatcher that is not ready, a tile
    without an actor (or an ['expired'] one) is fetched through the
    deduplication table and no message is sent by the call; when the fetch
    fails, the completion function is run with the error and no data, so
    on a tile that was not aborted an error other than a 404 reaches the
    callback and nothing is sent; when it succeeds, one [loadTile]
    message goes to the actor of the tile, and its payload is the one of
    the call with the [data] field reading the bytes and the two cache
    headers of the fetch, so that it makes the worker fetch nothing; a
    tile that has lost its actor by then is sent nothing.  A failed fetch
    for a tile that was aborted, or one that failed with a 404, ends with
    a null error for the callback.  With the same dispatcher, a tile that
    has an actor and is not ['expired'] is not fetched inline: the call
    only fills its reload slot if it is ['loading'], and sends
    [reloadTile] to its actor otherwise. *)
Theorem loadTile_cold_path (w : World) (r : nat) (tile : Tile.t)
    (callback : Callback) :
  heap w !! r = Some tile ->
  ready (dispatcher w) = false ->
  has_actor tile = false \/ Tile.state tile = "expired" ->
  let w' := loadTile w r callback in
  let params := tile_params w tile in
  let key := url (Params.request params) in
  let waiter := next_waiter (_deduped (this w)) in
  new_events w w' =
    match entries (_deduped (this w)) !! key with
    | None => [NetworkFetch key]
    | Some _ => []
    end /\
  existsb is_send (new_events w w') = false /\
  entries (_deduped (this w')) !! key =
    Some (default [] (entries (_deduped (this w)) !! key)
            ++ [(waiter, Fetched r callback params)])%list /\
  (exists tile', heap w' !! r = Some tile' /\
                 Tile.request tile' = Some (InlineFetch key waiter)) /\
  (forall later tile2, heap later !! r = Some tile2 ->
    (forall err data, is_Some err \/ data = None ->
       fetched later r callback params err data =
       done later r callback err None) /\
    (forall err data, fatal err = true -> Tile.aborted tile2 = false ->
       fetched later r callback params err data =
       log (Invoke callback err) (store r (Tile.set_request None tile2) later)) /\
    (forall d a, Tile.actor tile2 = Some a ->
       fetched later r callback params None (Some d) =
       log (Send a "loadTile"
              (TileParams
                 (Params.set_data
                    (Some {| fd_cacheControl := cacheControl d;
                             fd_expires := expires d;
                             fd_rawData := rawData d |}) params))
              (Some (Done r callback)) true) later) /\
    (forall err data, fatal err = true -> Tile.aborted tile2 = false ->
       new_events later (fetched later r callback params err data) =
         [Invoke callback err]) /\
    (forall d a, Tile.actor tile2 = Some a ->
       exists sent,
         new_events later (fetched later r callback params None (Some d)) =
           [Send a "loadTile" (TileParams sent) (Some (Done r callback))
                 true] /\
         (fd_rawData <$> Params.data sent) = Some (rawData d) /\
         (fd_cacheControl <$> Params.data sent) = Some (cacheControl d) /\
         (fd_expires <$> Params.data sent) = Some (expires d) /\
         Params.request sent = Params.request params /\
         Params.uid sent = Tile.uid tile /\
         Params.tileID sent = Tile.tileID tile /\
         Params.tileZoom sent = Params.tileZoom params /\
         Params.zoom sent = Params.zoom params /\
         Params.tileSize sent = Params.tileSize params /\
         Params.type sent = Params.type params /\
         Params.source sent = id (this w) /\
         Params.pixelRatio sent = Params.pixelRatio params /\
         Params.showCollisionBoxes sent = Params.showCollisionBoxes params /\
         Params.promoteId sent = Params.promoteId params /\
         Params.isSymbolTile sent = Params.isSymbolTile params /\
         causes_fetch (Send a "loadTile" (TileParams sent)
                            (Some (Done r callback)) true) = false) /\
    (forall d, Tile.actor tile2 = None ->
       fetched later r callback params None (Some d) = later) /\
    (forall err data, is_Some err \/ data = None ->
       Tile.aborted tile2 = true ->
       new_events later (fetched later r callback params err data) =
         [Invoke callback None]) /\
    (forall err data, is_Some err \/ data = None ->
       Tile.aborted tile2 = false -> fatal err = false ->
       exists after,
         new_events later (fetched later r callback params err data) =
           ([LoadVectorData r None; CacheEntryPossiblyAdded;
             Invoke callback None] ++ after)%list /\
         Forall (fun ev => is_invoke ev = false) after)) /\
  (forall r2 t2 a2 c2,
     heap w !! r2 = Some t2 ->
     Tile.actor t2 = Some a2 ->
     Tile.state t2 <> "expired" ->
     new_events w (loadTile w r2 c2) =
       (if String.eqb (Tile.state t2) "loading" then []
        else [Send a2 "reloadTile" (TileParams (tile_params w t2))
                   (Some (Done r2 c2)) false]) /\
     _deduped (this (loadTile w r2 c2)) = _deduped (this w) /\
     (Tile.reloadCallback <$> (heap (loadTile w r2 c2) !! r2)) =
       Some (if String.eqb (Tile.state t2) "loading" then Some c2
             else Tile.reloadCallback t2)).
Proof.
  intros Hr Hready Hf w' params key waiter.
  destruct (loadTile_cold_spec w r tile callback Hr Hf Hready)
    as (Ht & He & _ & Hh & _).
  fold w' params key waiter in Ht, He, Hh.
  assert (Hn : new_events w w' =
               match entries (_deduped (this w)) !! key with
               | None => [NetworkFetch key]
               | Some _ => []
               end) by (apply new_events_app; exact Ht).
  split; [exact Hn|]. split.
  { rewrite Hn. destruct (entries (_deduped (this w)) !! key); reflexivity. }
  split; [exact He|]. split.
  { eexists. split; [exact Hh | reflexivity]. }
  split; cycle 1.
  { intros r2 t2 a2 c2 Hr2 Ha2 He2.
    destruct (String.eqb_spec (Tile.state t2) "loading") as [Hl2|Hl2].
    - rewrite (loadTile_loading w r2 t2 a2 c2 Hr2 Hl2 Ha2).
      split; [apply new_events_app; unfold store; cbn [trace with_heap];
              rewrite app_nil_r; reflexivity|].
      split; [reflexivity|]. rewrite store_lookup. reflexivity.
    - rewrite (loadTile_reload w r2 t2 a2 c2 Hr2 Ha2 Hl2 He2).
      split; [apply new_events_app; reflexivity|].
      split; [reflexivity|]. rewrite store_lookup. reflexivity. }
  intros later tile2 Hl.
  assert (Hdone : forall err data, is_Some err \/ data = None ->
            fetched later r callback params err data =
            done later r callback err None).
  { intros err data [[e ->] | ->]; unfold fetched.
    - reflexivity.
    - destruct err; reflexivity. }
  assert (Hfail : forall err data, fatal err = true ->
            Tile.aborted tile2 = false ->
            fetched later r callback params err data =
            log (Invoke callback err)
                (store r (Tile.set_request None tile2) later)).
  { intros err data Hfatal Ha.
    destruct (fatal_is_error err Hfatal) as [e ->].
    unfold fetched. apply done_fatal; assumption. }
  assert (Hsent : forall d a, Tile.actor tile2 = Some a ->
            fetched later r callback params None (Some d) =
            log (Send a "loadTile"
                   (TileParams
                      (Params.set_data
                         (Some {| fd_cacheControl := cacheControl d;
                                  fd_expires := expires d;
                                  fd_rawData := rawData d |}) params))
                   (Some (Done r callback)) true) later).
  { intros d a Ha. unfold fetched. rewrite Hl, Ha. reflexivity. }
  split; [exact Hdone|]. split; [exact Hfail|]. split; [exact Hsent|].
  split; [|split; [|split; [|split]]].
  - intros err data Hfatal Ha. rewrite (Hfail err data Hfatal Ha).
    apply new_events_app. reflexivity.
  - intros d a Ha. rewrite (Hsent d a Ha).
    eexists. split; [apply new_events_app; reflexivity|].
    repeat split.
  - intros d Hnone. unfold fetched. rewrite Hl, Hnone. reflexivity.
  - intros err data Hfailed Hab. rewrite (Hdone err data Hfailed).
    rewrite (done_aborted later r tile2 callback err None Hl Hab).
    apply new_events_app. reflexivity.
  - intros err data Hfailed Hab Hnf. rewrite (Hdone err data Hfailed).
    rewrite (done_success later r tile2 callback err None Hl Hab Hnf).
    destruct (Tile.reloadCallback (materialized later tile2 None)) as [c2|].
    + destruct (loadTile_trace (delivered later r tile2 callback None) r c2)
        as (added & Ht2 & Hinv).
      exists added. split; [|exact Hinv].
      apply new_events_app.
      rewrite on_tile_trace, Ht2. unfold delivered. cbn [trace with_trace].
      rewrite <- !app_assoc. reflexivity.
    + exists []. split; [|constructor].
      apply new_events_app. reflexivity.
Qed.

(** *** A reload that was queued *)

Lemma materialized_keeps (w : World) (tile : Tile.t) (data : option TileResult) :
  TileContract ->
  Tile.actor (materialized w tile data) = Tile.actor tile /\
  Tile.reloadCallback (materialized w tile data) = Tile.reloadCallback tile /\
  Tile.aborted (materialized w tile data) = Tile.aborted tile /\
  Tile.state (materialized w tile data) <> "loading" /\
  Tile.state (materialized w tile data) <> "expired".
Proof.
  intros C. unfold materialized.
  match goal with
  | |- context [loadVectorData ?t data] =>
      destruct (loadVectorData_keeps C t data) as (Ha & Hc & Hb);
      destruct (loadVectorData_settles C t data) as (Hl & He);
      assert (Hin : Tile.actor t = Tile.actor tile /\
                    Tile.reloadCallback t = Tile.reloadCallback tile /\
                    Tile.aborted t = Tile.aborted tile)
  end.
  { destruct data as [d|]; [|repeat split].
    destruct (_refreshExpiredTiles (the_map w)).
    - match goal with
      | |- context [setExpiryData ?t d] =>
          destruct (setExpiryData_keeps C t d) as (Ha' & Hc' & Hb')
      end.
      rewrite Ha', Hc', Hb'. destruct (resourceTiming d); repeat split.
    - destruct (resourceTiming d); repeat split. }
  destruct Hin as (Ha0 & Hc0 & Hb0).
  rewrite Ha, Hc, Hb, Ha0, Hc0, Hb0. repeat split; assumption.
Qed.

(** A completion that finds a callback in the reload slot. *)
Lemma done_reissues (w : World) (r : nat) (tile : Tile.t) (a : Actor)
    (callback queued : Callback) (err : option Error)
    (data : option TileResult) :
  TileContract ->
  heap w !! r = Some tile ->
  Tile.aborted tile = false ->
  fatal err = false ->
  Tile.actor tile = Some a ->
  Tile.reloadCallback tile = Some queued ->
  let w' := done w r callback err data in
  exists params tile',
    trace w' =
      (trace w ++ expiry_calls w r data
         ++ [LoadVectorData r data; CacheEntryPossiblyAdded;
             Invoke callback None;
             Send a "reloadTile" (TileParams params) (Some (Done r queued))
                  false])%list /\
    heap w' !! r = Some tile' /\
    Tile.actor tile' = Some a /\
    Tile.reloadCallback tile' = None /\
    Tile.aborted tile' = false /\
    the_map w' = the_map w.
Proof.
  intros C Hr Hab Hf Ha Hq. simpl.
  rewrite (done_success w r tile callback err data Hr Hab Hf).
  destruct (materialized_keeps w tile data C) as (Ha' & Hq' & Hab' & Hl & He).
  rewrite Hq', Hq.
  set (wd := delivered w r tile callback data).
  assert (Hd : heap wd !! r = Some (materialized w tile data))
    by apply lookup_insert_eq.
  rewrite (loadTile_reload wd r _ a queued Hd (eq_trans Ha' Ha) Hl He).
  unfold on_tile. rewrite store_lookup. rewrite store_store.
  eexists. eexists. split; [|split; [apply store_lookup|]].
  - simpl. rewrite <- !app_assoc. reflexivity.
  - simpl. rewrite Ha', Hab'. repeat split; assumption.
Qed.

(** A completion that finds the reload slot empty. *)
Lemma done_settles (w : World) (r : nat) (tile : Tile.t)
    (callback : Callback) (err : option Error) (data : option TileResult) :
  TileContract ->
  heap w !! r = Some tile ->
  Tile.aborted tile = false ->
  fatal err = false ->
  Tile.reloadCallback tile = None ->
  trace (done w r callback err data) =
    (trace w ++ expiry_calls w r data
       ++ [LoadVectorData r data; CacheEntryPossiblyAdded;
           Invoke callback None])%list.
Proof.
  intros C Hr Hab Hf Hq.
  rewrite (done_success w r tile callback err data Hr Hab Hf).
  destruct (materialized_keeps w tile data C) as (_ & Hq' & _).
  rewrite Hq', Hq. reflexivity.
Qed.

Lemma answer_last_resumes (w : World) (before : list Event) (a : Actor)
    (type : string) (payload : Payload) (k : Continuation) (mustQueue : bool)
    (err : option Error) (data : option TileResult) :
  trace w = (before ++ [Send a type payload (Some k) mustQueue])%list ->
  answer_last err data w = resume k err data w.
Proof.
  intros Ht. unfold answer_last, reply. rewrite Ht.
  rewrite length_app. simpl. rewrite Nat.add_1_r. simpl.
  rewrite list_lookup_middle by reflexivity. reflexivity.
Qed.

Lemma assigned_actor_map (u : string) (w : World) :
  the_map (snd (assigned_actor u w)) = the_map w.
Proof.
  unfold assigned_actor. destruct (_tileWorkers (this w) !! u);
    [reflexivity | destruct (getActor _); reflexivity].
Qed.

Lemma expiry_calls_map (w w' : World) (r : nat) (data : option TileResult) :
  the_map w' = the_map w -> expiry_calls w' r data = expiry_calls w r data.
Proof. intros Hm. unfold expiry_calls. rewrite Hm. reflexivity. Qed.

(** From the answer to the first message on, the two paths agree. *)
Lemma overlapping_tail (w0 w3 : World) (r : nat) (t2 : Tile.t) (a : Actor)
    (first second : Callback) (before : list Event) (payload : Payload)
    (err1 : option Error) (data1 : option TileResult)
    (err2 : option Error) (data2 : option TileResult) :
  TileContract ->
  trace w3 =
    (trace w0 ++ before
       ++ [Send a "loadTile" payload (Some (Done r first)) true])%list ->
  heap w3 !! r = Some t2 ->
  Tile.aborted t2 = false ->
  Tile.actor t2 = Some a ->
  Tile.reloadCallback t2 = Some second ->
  the_map w3 = the_map w0 ->
  fatal err1 = false ->
  exists params2,
    new_events w0 (answer_last err2 data2 (answer_last err1 data1 w3)) =
      (before
         ++ [Send a "loadTile" payload (Some (Done r first)) true]
         ++ expiry_calls w0 r data1
         ++ [LoadVectorData r data1; CacheEntryPossiblyAdded;
             Invoke first None;
             Send a "reloadTile" (TileParams params2) (Some (Done r second))
                  false]
         ++ (if fatal err2 then [Invoke second err2]
             else expiry_calls w0 r data2
                    ++ [LoadVectorData r data2; CacheEntryPossiblyAdded;
                        Invoke second None]))%list.
Proof.
  intros C Ht Hh Hab Ha Hq Hm Hf1.
  rewrite (answer_last_resumes w3 (trace w0 ++ before) a "loadTile" payload
             (Done r first) true err1 data1)
    by (rewrite Ht, <- app_assoc; reflexivity).
  cbn [resume].
  destruct (done_reissues w3 r t2 a first second err1 data1 C Hh Hab Hf1 Ha Hq)
    as (params2 & t4 & Ht4 & Hh4 & Ha4 & Hq4 & Hab4 & Hm4).
  set (w4 := done w3 r first err1 data1) in *.
  rewrite (answer_last_resumes w4
             (trace w3 ++ expiry_calls w3 r data1
                ++ [LoadVectorData r data1; CacheEntryPossiblyAdded;
                    Invoke first None])
             a "reloadTile" (TileParams params2) (Done r second) false
             err2 data2)
    by (rewrite Ht4, <- !app_assoc; reflexivity).
  cbn [resume].
  exists params2. apply new_events_app.
  destruct (fatal err2) eqn:Hf2.
  - rewrite (done_fatal w4 r t4 second err2 data2 Hh4 Hab4 Hf2).
    unfold log, store. cbn [trace with_trace with_heap].
    rewrite Ht4, Ht.
    rewrite (expiry_calls_map w0 w3 r data1) by exact Hm.
    rewrite <- !app_assoc. reflexivity.
  - rewrite (done_settles w4 r t4 second err2 data2 C Hh4 Hab4 Hf2 Hq4).
    rewrite Ht4, Ht.
    rewrite (expiry_calls_map w0 w4 r data2) by (rewrite Hm4; exact Hm).
    rewrite (expiry_calls_map w0 w3 r data1) by exact Hm.
    rewrite <- !app_assoc. reflexivity.
Qed.

Lemma fetch_completes_sole_waiter (w : World) (key : string) (waiter : nat)
    (k : Continuation) (err : option Error) (data : option TileResult) :
  entries (_deduped (this w)) !! key = Some [(waiter, k)] ->
  let w' := fetch_completes key err data w in
  trace w' = trace (resume k err data w) /\
  heap w' = heap (resume k err data w) /\
  the_map w' = the_map (resume k err data w).
Proof.
  intros He. unfold fetch_completes. rewrite He. repeat split.
Qed.

(** The number of fetches of the calls of two overlapping requests. *)
Lemma overlapping_fetches (first : list Event) (a : Actor)
    (params2 : Params.t) (k2 : option Continuation)
    (expiry1 second : list Event) (r : nat) (c1 : Callback)
    (data1 : option TileResult) :
  fetches first = 1%nat ->
  fetches expiry1 = 0%nat ->
  fetches second = 0%nat ->
  fetches (first ++ expiry1
             ++ [LoadVectorData r data1; CacheEntryPossiblyAdded;
                 Invoke c1 None;
                 Send a "reloadTile" (TileParams params2) k2 false]
             ++ second) = 1%nat.
Proof.
  unfold fetches. intros H1 H2 H3.
  rewrite !filter_app, !length_app, H1, H2, H3. reflexivity.
Qed.

Lemma expiry_calls_fetches (w : World) (r : nat) (data : option TileResult) :
  fetches (expiry_calls w r data) = 0%nat.
Proof.
  unfold expiry_calls. destruct data; [|reflexivity].
  destruct (_refreshExpiredTiles (the_map w)); reflexivity.
Qed.

(** The calls of the completion of the second request fetch nothing. *)
Lemma second_completion_fetches (w : World) (r : nat) (second : Callback)
    (err2 : option Error) (data2 : option TileResult) :
  fetches (if fatal err2 then [Invoke second err2]
           else expiry_calls w r data2
                  ++ [LoadVectorData r data2; CacheEntryPossiblyAdded;
                      Invoke second None])%list = 0%nat.
Proof.
  destruct (fatal err2); [reflexivity|].
  unfold fetches. rewrite filter_app, length_app.
  change (length (filter (fun e => causes_fetch e = true)
                         (expiry_calls w r data2)))
    with (fetches (expiry_calls w r data2)).
  rewrite expiry_calls_fetches. reflexivity.
Qed.

(** C3, as the code has it: a completion for a tile that was not aborted,
    without an error or with a 404, calls the callback and then, if the
    reload slot holds a callback, calls [loadTile] with it and empties the
    slot; a completion with another error calls the callback with it and
    nothing else, and the slot reads what it held.  Hence, with a [Tile]
    class that keeps to its contract, two
    overlapping calls for a ['loading'] tile that had no actor (and, with
    a dispatcher that is not ready, no fetch of its URL under way) make
    one fetch, and both callbacks are called once the worker has
    answered: the first with a null error, the second with a null error
    or, if the second answer is an error other than a 404, with that
    error. *)
Theorem done_reissues_queued_reload (w : World) (r : nat) (tile : Tile.t)
    (callback : Callback) (err : option Error) (data : option TileResult) :
  heap w !! r = Some tile ->
  Tile.aborted tile = false ->
  fatal err = false ->
  (forall queued,
     Tile.reloadCallback (materialized w tile data) = Some queued ->
     let w1 := delivered w r tile callback data in
     let w' := done w r callback err data in
     w' = on_tile r (Tile.set_reloadCallback None) (loadTile w1 r queued) /\
     new_events w w' =
       (expiry_calls w r data
          ++ [LoadVectorData r data; CacheEntryPossiblyAdded;
              Invoke callback None]
          ++ new_events w1 (loadTile w1 r queued))%list /\
     exists tile', heap w' !! r = Some tile' /\
                   Tile.reloadCallback tile' = None) /\
  (TileContract ->
   Tile.actor tile = None ->
   Tile.state tile = "loading" ->
   (ready (dispatcher w) = false ->
    entries (_deduped (this w)) !! url (Params.request (tile_params w tile))
      = None) ->
   forall second bytes err2 data2,
     let w' := overlapping w r callback second bytes err data err2 data2 in
     exists a params2,
       new_events w w' =
         ((if ready (dispatcher w) then
             [Send a "loadTile" (TileParams (tile_params w tile))
                   (Some (Done r callback)) true]
           else
             [NetworkFetch (url (Params.request (tile_params w tile)));
              Send a "loadTile"
                   (TileParams
                      (Params.set_data
                         (Some {| fd_cacheControl := cacheControl bytes;
                                  fd_expires := expires bytes;
                                  fd_rawData := rawData bytes |})
                         (tile_params w tile)))
                   (Some (Done r callback)) true])
            ++ expiry_calls w r data
            ++ [LoadVectorData r data; CacheEntryPossiblyAdded;
                Invoke callback None;
                Send a "reloadTile" (TileParams params2)
                     (Some (Done r second)) false]
            ++ (if fatal err2 then [Invoke second err2]
                else expiry_calls w r data2
                       ++ [LoadVectorData r data2; CacheEntryPossiblyAdded;
                           Invoke second None]))%list /\
       fetches (new_events w w') = 1%nat /\
       Invoke callback None ∈ new_events w w' /\
       Invoke second (if fatal err2 then err2 else None) ∈ new_events w w') /\
  (forall other,
     fatal other = true ->
     let w' := done w r callback other data in
     new_events w w' = [Invoke callback other] /\
     (Tile.reloadCallback <$> (heap w' !! r)) =
       Some (Tile.reloadCallback tile)).
Proof.
  intros Hr Hab Hf. split; [|split]; cycle 2.
  { intros other Hfo w'. unfold w'.
    rewrite (done_fatal w r tile callback other data Hr Hab Hfo).
    split; [apply new_events_app; reflexivity|].
    unfold log. cbn [heap with_trace]. rewrite store_lookup. reflexivity. }
  - intros queued Hq w1 w'.
    assert (Hw' : w' = on_tile r (Tile.set_reloadCallback None)
                               (loadTile w1 r queued)).
    { unfold w'. rewrite (done_success w r tile callback err data Hr Hab Hf).
      rewrite Hq. reflexivity. }
    destruct (loadTile_trace w1 r queued) as (added & Ht & _).
    assert (Hw1 : heap w1 !! r = Some (materialized w tile data))
      by apply store_lookup.
    destruct (loadTile_heap w1 r _ queued Hw1) as (t' & Ht').
    split; [exact Hw'|]. split.
    + apply new_events_app. rewrite Hw', on_tile_trace, Ht.
      rewrite (new_events_app w1 _ added Ht).
      unfold w1, delivered. cbn [trace with_trace].
      rewrite <- !app_assoc. reflexivity.
    + exists (Tile.set_reloadCallback None t'). split; [|reflexivity].
      rewrite Hw'. unfold on_tile. rewrite Ht'. apply store_lookup.
  - intros C Hnone Hs Hkey second bytes err2 data2 w'.
    assert (Hcalled : forall (first1 expiry1 : list Event) (a0 : Actor)
                             (p2 : Params.t),
              Invoke callback None ∈
                (first1 ++ expiry1
                   ++ [LoadVectorData r data; CacheEntryPossiblyAdded;
                       Invoke callback None;
                       Send a0 "reloadTile" (TileParams p2)
                            (Some (Done r second)) false]
                   ++ (if fatal err2 then [Invoke second err2]
                       else expiry_calls w r data2
                              ++ [LoadVectorData r data2;
                                  CacheEntryPossiblyAdded;
                                  Invoke second None]))%list /\
              Invoke second (if fatal err2 then err2 else None) ∈
                (first1 ++ expiry1
                   ++ [LoadVectorData r data; CacheEntryPossiblyAdded;
                       Invoke callback None;
                       Send a0 "reloadTile" (TileParams p2)
                            (Some (Done r second)) false]
                   ++ (if fatal err2 then [Invoke second err2]
                       else expiry_calls w r data2
                              ++ [LoadVectorData r data2;
                                  CacheEntryPossiblyAdded;
                                  Invoke second None]))%list).
    { intros first1 expiry1 a0 p2. split.
      - apply elem_of_app. right. apply elem_of_app. right.
        apply elem_of_app. left. repeat constructor.
      - apply elem_of_app. right. apply elem_of_app. right.
        apply elem_of_app. right.
        destruct (fatal err2); [repeat constructor|].
        apply elem_of_app. right. repeat constructor. }
    assert (Hfresh : has_actor tile = false \/ Tile.state tile = "expired").
    { left. unfold has_actor. rewrite Hnone. reflexivity. }
    set (a := fst (assigned_actor (tile_url w tile) w)).
    exists a. unfold w', overlapping. rewrite Hr.
    destruct (ready (dispatcher w)) eqn:Hready.
    + rewrite (loadTile_fresh_ready w r tile callback Hr Hfresh Hready).
      fold a.
      set (t1 := Tile.set_request (Some (Sent (length (trace w))))
                                  (Tile.set_actor (Some a) tile)).
      set (W := log _ _).
      rewrite (loadTile_loading (store r t1 W) r t1 a second
                 (store_lookup r t1 W) Hs eq_refl).
      destruct (assigned_actor_keeps (tile_url w tile) w) as (_ & Htr & _).
      pose proof (assigned_actor_map (tile_url w tile) w) as Hm.
      destruct (overlapping_tail w
                  (store r (Tile.set_reloadCallback (Some second) t1)
                         (store r t1 W))
                  r (Tile.set_reloadCallback (Some second) t1) a callback
                  second [] (TileParams (tile_params w tile))
                  err data err2 data2 C)
        as (params2 & Hn); try assumption; try reflexivity.
      * unfold W, store, log, with_tileWorkers, with_this.
        cbn [trace with_heap with_trace]. rewrite Htr. reflexivity.
      * apply store_lookup.
      * exists params2. rewrite Hn. split; [reflexivity|].
        split; [|apply Hcalled].
        apply (overlapping_fetches
                 [Send a "loadTile" (TileParams (tile_params w tile))
                       (Some (Done r callback)) true]);
          [reflexivity | apply expiry_calls_fetches
           | apply second_completion_fetches].
    + destruct (loadTile_cold_spec w r tile callback Hr Hfresh Hready)
        as (Ht1 & He1 & _ & Hh1 & Hm1).
      fold a in Hh1. rewrite (Hkey eq_refl) in Ht1, He1.
      set (w1 := loadTile w r callback) in *.
      set (key := url (Params.request (tile_params w tile))) in *.
      set (t1 := Tile.set_request
                   (Some (InlineFetch key (next_waiter (_deduped (this w)))))
                   (Tile.set_actor (Some a) tile)) in *.
      rewrite (loadTile_loading w1 r t1 a second Hh1 Hs eq_refl).
      set (t2 := Tile.set_reloadCallback (Some second) t1).
      set (w2 := store r t2 w1).
      assert (He2 : entries (_deduped (this w2)) !! key =
                    Some [(next_waiter (_deduped (this w)),
                           Fetched r callback (tile_params w tile))])
        by exact He1.
      destruct (fetch_completes_sole_waiter w2 key _ _ None (Some bytes) He2)
        as (Ht3 & Hh3 & Hm3).
      set (w3 := fetch_completes key None (Some bytes) w2) in *.
      assert (Hres : resume (Fetched r callback (tile_params w tile)) None
                            (Some bytes) w2 =
                     log (Send a "loadTile"
                            (TileParams
                               (Params.set_data
                                  (Some {| fd_cacheControl := cacheControl bytes;
                                           fd_expires := expires bytes;
                                           fd_rawData := rawData bytes |})
                                  (tile_params w tile)))
                            (Some (Done r callback)) true) w2).
      { cbn [resume]. unfold fetched.
        unfold w2 at 1. rewrite store_lookup. reflexivity. }
      rewrite Hres in Ht3, Hh3, Hm3.
      destruct (overlapping_tail w w3 r t2 a callback second
                  [NetworkFetch key]
                  (TileParams
                     (Params.set_data
                        (Some {| fd_cacheControl := cacheControl bytes;
                                 fd_expires := expires bytes;
                                 fd_rawData := rawData bytes |})
                        (tile_params w tile)))
                  err data err2 data2 C)
        as (params2 & Hn); try assumption; try reflexivity.
      * rewrite Ht3. unfold w2, store, log.
        cbn [trace with_heap with_trace]. rewrite Ht1.
        rewrite <- app_assoc. reflexivity.
      * rewrite Hh3. apply store_lookup.
      * rewrite Hm3. exact Hm1.
      * exists params2. rewrite Hn. split; [reflexivity|].
        split;
          [|exact (Hcalled
                     [NetworkFetch key;
                      Send a "loadTile"
                           (TileParams
                              (Params.set_data
                                 (Some {| fd_cacheControl := cacheControl bytes;
                                          fd_expires := expires bytes;
                                          fd_rawData := rawData bytes |})
                                 (tile_params w tile)))
                           (Some (Done r callback)) true]
                     (expiry_calls w r data) a params2)].
        apply (overlapping_fetches
                 [NetworkFetch key;
                  Send a "loadTile"
                       (TileParams
                          (Params.set_data
                             (Some {| fd_cacheControl := cacheControl bytes;
                                      fd_expires := expires bytes;
                                      fd_rawData := rawData bytes |})
                             (tile_params w tile)))
                       (Some (Done r callback)) true]);
          [reflexivity | apply expiry_calls_fetches
           | apply second_completion_fetches].
Qed.

(** A fresh dispatch binds an actor and leaves a request handle: this is
    what a request in flight looks like on the tile. *)
Lemma loadTile_dispatch_binds (w : World) (r : nat) (tile : Tile.t)
    (callback : Callback) :
  heap w !! r = Some tile ->
  has_actor tile = false \/ Tile.state tile = "expired" ->
  exists tile' a request,
    heap (loadTile w r callback) !! r = Some tile' /\
    Tile.actor tile' = Some a /\
    Tile.request tile' = Some request /\
    Tile.state tile' = Tile.state tile.
Proof.
  intros Hr Hf. destruct (ready (dispatcher w)) eqn:Hready.
  - rewrite (loadTile_fresh_ready w r tile callback Hr Hf Hready).
    eexists. eexists. eexists. split; [apply store_lookup|].
    repeat split.
  - destruct (loadTile_cold_spec w r tile callback Hr Hf Hready)
      as (_ & _ & _ & Hh & _).
    eexists. eexists. eexists. split; [exact Hh|]. repeat split.
Qed.

(** A request handle on a tile comes with an actor, and [loadTile] keeps
    it so. *)
Lemma loadTile_request_has_actor (w : World) (r : nat) (tile : Tile.t)
    (callback : Callback) :
  heap w !! r = Some tile ->
  (is_Some (Tile.request tile) -> is_Some (Tile.actor tile)) ->
  exists tile',
    heap (loadTile w r callback) !! r = Some tile' /\
    (is_Some (Tile.request tile') -> is_Some (Tile.actor tile')).
Proof.
  intros Hr Hb.
  destruct (has_actor tile) eqn:Hact.
  - unfold has_actor in Hact.
    destruct (Tile.actor tile) as [a|] eqn:Ha; [|discriminate Hact].
    destruct (String.eqb_spec (Tile.state tile) "expired") as [He|He].
    + destruct (loadTile_dispatch_binds w r tile callback Hr (or_intror He))
        as (t' & a' & q & Hh & Ha' & _).
      exists t'. split; [exact Hh|]. intros _. rewrite Ha'. eexists. reflexivity.
    + destruct (String.eqb_spec (Tile.state tile) "loading") as [Hl|Hl].
      * rewrite (loadTile_loading w r tile a callback Hr Hl Ha).
        eexists. split; [apply store_lookup|].
        intros _. cbn [Tile.actor Tile.set_reloadCallback]. rewrite Ha.
        eexists. reflexivity.
      * rewrite (loadTile_reload w r tile a callback Hr Ha Hl He).
        eexists. split; [apply store_lookup|].
        intros _. cbn [Tile.actor Tile.set_request]. rewrite Ha.
        eexists. reflexivity.
  - destruct (loadTile_dispatch_binds w r tile callback Hr (or_introl Hact))
      as (t' & a' & q & Hh & Ha' & _).
    exists t'. split; [exact Hh|]. intros _. rewrite Ha'. eexists. reflexivity.
Qed.

End Tiles.

(** ** The handle invariant along a run *)

Section Handles.
Context `{RequestManager} `{Collaborators}.
Import LoadTileJSON.

Lemma load_callback_request (d : Delivery) (w : World) :
  _tileJSONRequest (this (load_callback d w)) = None.
Proof.
  unfold load_callback. destruct d as [err|tileJSON]; [reflexivity|].
  cbv zeta. destruct (truthy (prop tileJSON "bounds")); reflexivity.
Qed.

Lemma handles_allocated_load (w : World) : handles_allocated (load w).
Proof.
  intros h Hh. destruct (load_spec w) as (Hb & Hr & _).
  rewrite Hr in Hh. injection Hh as <-. rewrite Hb.
  destruct (loadTileJSON_pending (_options (this w)) tt (browser w))
    as (_ & Hn & _).
  rewrite Hn. lia.
Qed.

Lemma handles_allocated_step (w : World) (op : Operation) :
  handles_allocated w -> handles_allocated (step w op).
Proof.
  intros Hwf.
  assert (Hset : forall c, handles_allocated (setSourceProperty c w)).
  { intros c. unfold setSourceProperty. apply handles_allocated_load. }
  destruct op as [url|tiles| |h' err tileJSON|h']; cbn [step].
  - apply Hset.
  - apply Hset.
  - unfold onRemove. destruct (_tileJSONRequest (this w)) eqn:Hq.
    + intros h Hh. discriminate Hh.
    + exact Hwf.
  - unfold json_response, respond.
    destruct (pending (browser w) !! h') as [[u o k|o k]|];
      try (intros h Hh; rewrite with_browser_same in Hh |- *; apply Hwf, Hh).
    destruct (LoadTileJSON.loaded o err tileJSON) as [[d|]|m].
    + intros h Hh. rewrite load_callback_request in Hh. discriminate Hh.
    + intros h Hh. apply (Hwf h Hh).
    + intros h Hh. apply (Hwf h Hh).
  - unfold next_frame, animation_frame.
    destruct (pending (browser w) !! h') as [[u o k|o k]|];
      try (intros h Hh; rewrite with_browser_same in Hh |- *; apply Hwf, Hh).
    destruct (LoadTileJSON.loaded o None (Some o)) as [[d|]|m].
    + intros h Hh. rewrite load_callback_request in Hh. discriminate Hh.
    + intros h Hh. apply (Hwf h Hh).
    + intros h Hh. apply (Hwf h Hh).
Qed.

Lemma handles_allocated_run (ops : list Operation) (w : World) :
  handles_allocated w -> handles_allocated (run ops w).
Proof.
  revert w. induction ops as [|op ops IH]; intros w Hwf; [exact Hwf|].
  apply IH, handles_allocated_step, Hwf.
Qed.

End Handles.

(** * The code at work on the concrete setting *)

Section Examples.
Import Sample.
#[local] Existing Instance manager.
#[local] Existing Instance collaborators.

Lemma sample_contract : TileContract.
Proof.
  constructor; intros t d; repeat split; discriminate.
Qed.

Ltac not_in_list Hin :=
  repeat (apply elem_of_cons in Hin; destruct Hin as [Hin|Hin];
          [discriminate Hin|]);
  revert Hin; apply not_elem_of_nil.

(** A server error reaches the callback of a tile in flight; a 404 with
    data leaves their resource timing on the tile. *)
Lemma done_error_unless_404_witness :
  let t := tile "loading" (Some 0%nat) (Some (Sent 0)) false None in
  let w := world true t in
  let data := some_data (Some ["timing"]) in
  heap w !! 0%nat = Some t /\ Tile.aborted t = false /\
  done w 0 7%nat (Some server_error) None =
  log (Invoke 7%nat (Some server_error)) (store 0 (Tile.set_request None t) w) /\
  (Tile.resourceTiming
     <$> (heap (done w 0 7%nat (Some not_found) (Some data)) !! 0%nat)) =
    Some (Some ["timing"]).
Proof.
  intros t w data. split; [reflexivity|]. split; [reflexivity|]. split.
  - assert (Hs : status server_error <> Some 404) by discriminate.
    exact (proj1 (proj1 (done_error_unless_404 w 0 t 7%nat server_error None
                           eq_refl eq_refl) Hs)).
  - exact (proj1 (proj2 (proj2 (proj2 (done_error_unless_404 w 0 t 7%nat
                                         not_found (Some data)
                                         eq_refl eq_refl) eq_refl)))
                 (fun _ _ => eq_refl) (fun _ _ => eq_refl)).
Defined.

(** A 404: the callback is called with a null error, never with the
    error, after the tile was given the (missing) data; and when the 404
    comes with data, their resource timing is put on the tile. *)
Lemma not_found_is_not_propagated :
  let t := tile "loading" (Some 0%nat) (Some (Sent 0)) false None in
  let data := some_data (Some ["timing"]) in
  let bare := done (world true t) 0 7%nat (Some not_found) None in
  let w' := done (world true t) 0 7%nat (Some not_found) (Some data) in
  Tile.aborted t = false /\
  status not_found = Some 404 /\
  trace bare = [LoadVectorData 0 None; CacheEntryPossiblyAdded;
                Invoke 7%nat None] /\
  (Invoke 7%nat (Some not_found) ∉ trace bare) /\
  trace w' = [SetExpiryData 0 data; LoadVectorData 0 (Some data);
              CacheEntryPossiblyAdded; Invoke 7%nat None] /\
  Tile.resourceTiming t = None /\
  (Tile.resourceTiming <$> (heap w' !! 0%nat)) = Some (Some ["timing"]).
Proof.
  intros t data bare w'.
  assert (Ht : trace bare = [LoadVectorData 0 None; CacheEntryPossiblyAdded;
                             Invoke 7%nat None])
    by (vm_compute; reflexivity).
  split; [reflexivity|]. split; [reflexivity|].
  split; [exact Ht|]. split; [|split; [|split]].
  - rewrite Ht. intros Hin. not_in_list Hin.
  - vm_compute. reflexivity.
  - reflexivity.
  - vm_compute. reflexivity.
Qed.

(** Two more calls while the tile is loading. *)
Lemma loadTile_while_loading_witness :
  let t := tile "loading" (Some 0%nat) (Some (Sent 0)) false None in
  let w := world true t in
  heap w !! 0%nat = Some t /\ Tile.state t = "loading" /\
  Tile.actor t = Some 0%nat /\
  trace (loadTile (loadTile w 0 7%nat) 0 8%nat) = trace w /\
  heap (loadTile (loadTile w 0 7%nat) 0 8%nat) !! 0%nat =
    Some (Tile.set_reloadCallback (Some 8%nat) t) /\
  (Tile.reloadCallback
     <$> (heap (loadTile (loadTile w 0 7%nat) 0 8%nat) !! 0%nat)) =
    Some (Some 8%nat) /\
  (Tile.request
     <$> (heap (loadTile (loadTile w 0 7%nat) 0 8%nat) !! 0%nat)) =
    Some (Some (Sent 0)).
Proof.
  intros t w. split; [reflexivity|]. split; [reflexivity|].
  split; [reflexivity|].
  destruct (loadTile_while_loading w 0 t 0%nat [7%nat] 8%nat
              eq_refl eq_refl eq_refl)
    as (_ & Ht & _ & Hh & _ & _ & Hc & Hq & _).
  split; [exact Ht|]. split; [exact Hh|]. split; [exact Hc | exact Hq].
Defined.

(** An error completion leaves a queued reload where it is: no call of
    [loadTile], the slot still holds the callback, which was not
    called. *)
Lemma error_completion_strands_reload :
  let t := tile "loading" (Some 0%nat) (Some (Sent 0)) false (Some 8%nat) in
  let w' := done (world true t) 0 7%nat (Some server_error) None in
  Tile.aborted t = false /\
  trace w' = [Invoke 7%nat (Some server_error)] /\
  (Tile.reloadCallback <$> (heap w' !! 0%nat)) = Some (Some 8%nat).
Proof.
  intros t w'. split; [reflexivity|].
  split; vm_compute; reflexivity.
Qed.

(** Two overlapping calls for a new tile, dispatcher ready. *)
Lemma done_reissues_queued_reload_witness :
  let t := tile "loading" None None false None in
  let w := world true t in
  let d := some_data None in
  heap w !! 0%nat = Some t /\ Tile.aborted t = false /\
  fatal None = false /\
  fetches (new_events w (overlapping w 0 7%nat 8%nat d None (Some d)
                                     None (Some d))) = 1%nat /\
  Invoke 7%nat None ∈ new_events w (overlapping w 0 7%nat 8%nat d None (Some d)
                                                None (Some d)) /\
  Invoke 8%nat None ∈ new_events w (overlapping w 0 7%nat 8%nat d None (Some d)
                                                None (Some d)).
Proof.
  intros t w d. split; [reflexivity|]. split; [reflexivity|].
  split; [reflexivity|].
  destruct (proj1 (proj2 (done_reissues_queued_reload w 0 t 7%nat None
                            (Some d) eq_refl eq_refl eq_refl))
              sample_contract eq_refl eq_refl
              (fun Hready => eq_refl) 8%nat d None (Some d))
    as (a & params2 & _ & Hfetches & Hfirst & Hsecond).
  split; [exact Hfetches|]. split; [exact Hfirst | exact Hsecond].
Defined.

(** A completion for a tile that was aborted. *)
Lemma done_aborted_is_swallowed_witness :
  let t := tile "loading" (Some 0%nat) None true (Some 8%nat) in
  let w := world true t in
  heap w !! 0%nat = Some t /\ Tile.aborted t = true /\
  new_events w (done w 0 7%nat (Some server_error) None) =
    [Invoke 7%nat None].
Proof.
  intros t w. split; [reflexivity|]. split; [reflexivity|].
  destruct (proj2 (done_aborted_is_swallowed w 0 t 7%nat (Some server_error)
                     None eq_refl) eq_refl) as (_ & Hn & _).
  exact Hn.
Defined.

(** A new tile while the workers are not ready. *)
Lemma loadTile_cold_path_witness :
  let t := tile "loading" None None false None in
  let w := world false t in
  heap w !! 0%nat = Some t /\ ready (dispatcher w) = false /\
  has_actor t = false /\
  existsb is_send (new_events w (loadTile w 0 7%nat)) = false /\
  exists sent,
    new_events (loadTile w 0 7%nat)
      (fetched (loadTile w 0 7%nat) 0 7%nat (tile_params w t) None
               (Some (some_data None))) =
      [Send 0%nat "loadTile" (TileParams sent) (Some (Done 0 7%nat)) true] /\
    (fd_cacheControl <$> Params.data sent) = Some (VStr "max-age=60").
Proof.
  intros t w. split; [reflexivity|]. split; [reflexivity|].
  split; [reflexivity|].
  destruct (loadTile_cold_path w 0 t 7%nat eq_refl eq_refl
              (or_introl eq_refl)) as (_ & Hs & _ & _ & Hlater & _).
  split; [exact Hs|].
  assert (Hh : heap (loadTile w 0 7%nat) !! 0%nat =
               Some (tile "loading" (Some 0%nat)
                          (Some (InlineFetch
                                   "https://tiles.example/{z}/{x}/{y}.mvt" 0))
                          false None))
    by (vm_compute; reflexivity).
  destruct (Hlater _ _ Hh) as (_ & _ & _ & _ & Hsent & _).
  destruct (Hsent (some_data None) 0%nat eq_refl)
    as (sent & Hn & _ & Hc & _).
  exists sent. split; [exact Hn | exact Hc].
Defined.

(** The dispatcher is not ready.  A tile that is in flight is not fetched
    again: the call only fills the reload slot.  A tile that has an actor
    and is ['loaded'] is sent a [reloadTile] message at once, and nothing
    is fetched inline.  And an inline fetch that fails with a 404 ends
    with a null error for the callback. *)
Lemma cold_dispatcher_reload_and_404 :
  let queued := loadTile (world false (tile "loading" (Some 0%nat)
                                            (Some (InlineFetch "u" 0)) false None))
                         0 7%nat in
  let t := tile "loaded" (Some 5%nat) None false None in
  let w := world false t in
  let w' := loadTile w 0 7%nat in
  let cold := loadTile (world false (tile "loading" None None false None))
                       0 7%nat in
  ready (dispatcher w) = false /\
  trace queued = [] /\
  entries (_deduped (this queued)) = ∅ /\
  match trace w' with
  | [Send a type _ k _] => a = 5%nat /\ type = "reloadTile"
  | _ => False
  end /\
  entries (_deduped (this w')) = ∅ /\
  trace cold = [NetworkFetch "https://tiles.example/{z}/{x}/{y}.mvt"] /\
  new_events cold
    (fetch_completes "https://tiles.example/{z}/{x}/{y}.mvt"
                     (Some not_found) None cold) =
    [LoadVectorData 0 None; CacheEntryPossiblyAdded; Invoke 7%nat None].
Proof.
  intros queued t w w' cold. split; [reflexivity|].
  split; [vm_compute; reflexivity|].
  split; [vm_compute; reflexivity|].
  split; [vm_compute; split; reflexivity|].
  split; [vm_compute; reflexivity|].
  split; vm_compute; reflexivity.
Qed.



(** A source that is loading its metadata gets a new URL. *)
Lemma setSourceProperty_supersedes_witness :
  let w := load blank in
  handles_allocated w /\
  _tileJSONRequest (this w) = Some 0%nat /\
  forall err tileJSON,
    json_response 0%nat err tileJSON (setUrl "https://tiles.example/other.json" w)
    = setUrl "https://tiles.example/other.json" w.
Proof.
  intros w.
  assert (Hwf : handles_allocated w).
  { intros h Hh. vm_compute in Hh. injection Hh as <-. vm_compute. lia. }
  split; [exact Hwf|]. split; [reflexivity|].
  pose proof (setSourceProperty_supersedes
                (UrlChange "https://tiles.example/other.json") w Hwf) as Hs.
  cbv beta iota zeta in Hs.
  destruct Hs as (_ & _ & _ & _ & _ & Hstale).
  specialize (Hstale 0%nat eq_refl []).
  cbv beta iota zeta delta [run foldl] in Hstale.
  destruct Hstale as (_ & Hresp & _).
  exact Hresp.
Defined.



End Examples.

(** * Further properties of the code *)

(** ** The wrapper of GeoJSON features *)

Section Wrapper.
Context {Coord : Type} `{WrapperEnvironment}.

Lemma foldl_push {A B : Type} (f : A -> B) (l : list A) (acc : list B) :
  foldl (fun acc a => (acc ++ [f a])%list) acc l = (acc ++ map f l)%list.
Proof.
  revert acc. induction l as [|a l IH]; intros acc; cbn [foldl map].
  - rewrite app_nil_r. reflexivity.
  - rewrite IH, <- app_assoc. reflexivity.
Qed.

Lemma map_same {A : Type} (f : A -> A) (l : list A) :
  (forall a, f a = a) -> map f l = l.
Proof.
  intros Hf. induction l as [|a l IH]; cbn [map]; [reflexivity|].
  rewrite Hf, IH. reflexivity.
Qed.

(** X1: [loadGeometry] keeps every coordinate pair, in order: the rings
    of a feature of type 2 or 3 come back as they are, and every point of
    a feature of type 1 comes back as a ring of its own. *)
Theorem loadGeometry_keeps_coordinates (feature : Feature.t Coord) :
  pairs (FeatureWrapper.loadGeometry (FeatureWrapper.constructor feature)) =
  match feature with
  | Feature.Points _ _ points => map (fun p => [p]) points
  | Feature.Paths _ _ _ rings => rings
  end.
Proof.
  unfold FeatureWrapper.loadGeometry, FeatureWrapper.constructor, pairs.
  cbn [FeatureWrapper._feature].
  destruct feature as [i g points | ty i g rings].
  - rewrite (foldl_push (fun point => [Build_Point (fst point) (snd point)])).
    cbn [app]. rewrite map_map. apply map_ext. intros [a b]. reflexivity.
  - rewrite (foldl_push
               (fun ring =>
                  foldl (fun newRing point =>
                           (newRing ++ [Build_Point (fst point) (snd point)])%list)
                        [] ring)).
    cbn [app]. rewrite map_map. apply map_same. intros ring.
    rewrite (foldl_push (fun point => Build_Point (fst point) (snd point))).
    cbn [app]. rewrite map_map. apply map_same. intros [a b]. reflexivity.
Qed.

(** X2: [feature(i)] of a wrapper of [features] returns exactly for the
    indices from 0 to [length - 1]; what it returns wraps the feature at
    that index, with its type, its tags as properties and the extent of
    the wrapper; for every other index it throws. *)
Theorem feature_within_length (features : list (Feature.t Coord)) (i : Z) :
  let w := GeoJSONWrapper.constructor features in
  match GeoJSONWrapper.feature w i with
  | Normal fw =>
      0 <= i < GeoJSONWrapper.length w /\
      features !! Z.to_nat i = Some (FeatureWrapper._feature fw) /\
      FeatureWrapper.type fw = Feature.type (FeatureWrapper._feature fw) /\
      FeatureWrapper.properties fw = Feature.tags (FeatureWrapper._feature fw) /\
      FeatureWrapper.extent fw = GeoJSONWrapper.extent w
  | Throw _ => i < 0 \/ GeoJSONWrapper.length w <= i
  end.
Proof.
  unfold GeoJSONWrapper.feature, GeoJSONWrapper.constructor.
  cbn [GeoJSONWrapper._features GeoJSONWrapper.length GeoJSONWrapper.extent].
  destruct (Z.ltb_spec i 0) as [Hneg|Hpos]; [left; exact Hneg|].
  destruct (features !! Z.to_nat i) as [f|] eqn:Hf.
  - apply lookup_lt_Some in Hf. repeat split; try reflexivity; lia.
  - apply lookup_ge_None in Hf. right. lia.
Qed.

End Wrapper.

(** ** More on the metadata loader *)

Section LoaderMore.
Context `{RequestManager}.
Import LoadTileJSON.

Lemma layer_ids_length (layers ids : list Value) :
  layer_ids layers = Normal ids -> List.length ids = List.length layers.
Proof.
  revert ids. induction layers as [|layer rest IH]; intros ids Hl;
    cbn [layer_ids] in Hl.
  - injection Hl as <-. reflexivity.
  - destruct (member layer "id") as [i|]; [|discriminate Hl].
    destruct (layer_ids rest) as [ids'|]; [|discriminate Hl].
    injection Hl as <-. cbn [List.length]. rewrite (IH ids' eq_refl).
    reflexivity.
Qed.

Lemma layer_ids_lookup (layers ids : list Value) (n : nat) (layer : Value) :
  layer_ids layers = Normal ids ->
  layers !! n = Some layer ->
  exists i, member layer "id" = Normal i /\ ids !! n = Some i.
Proof.
  revert ids n. induction layers as [|l rest IH]; intros ids n Hl Hn;
    [discriminate Hn|].
  cbn [layer_ids] in Hl.
  destruct (member l "id") as [i|] eqn:Hm; [|discriminate Hl].
  destruct (layer_ids rest) as [ids'|] eqn:Hr; [|discriminate Hl].
  injection Hl as <-. destruct n as [|n].
  - injection Hn as <-. exists i. split; [exact Hm | reflexivity].
  - apply (IH ids' n eq_refl Hn).
Qed.

Lemma layer_ids_throws (layers : list Value) (m : string) :
  layer_ids layers = Throw m ->
  exists layer, layer ∈ layers /\ (layer = VUndefined \/ layer = VNull).
Proof.
  induction layers as [|l rest IH]; intros Hl; [discriminate Hl|].
  cbn [layer_ids] in Hl.
  destruct (member l "id") as [i|] eqn:Hm.
  - destruct (layer_ids rest) as [ids'|] eqn:Hr; [discriminate Hl|].
    destruct (IH Hl) as (layer & Hin & Hnull).
    exists layer. split; [apply list_elem_of_further, Hin | exact Hnull].
  - exists l. split; [apply list_elem_of_here|].
    destruct l; try discriminate Hm; auto.
Qed.

(** X3: when the merged document (options over the fetched one) has a
    list of layers, the result carries the list as [vectorLayers] and, as
    [vectorLayerIds], the [id] of every layer at the same index, and the
    one way for the list to make [loaded] throw is a layer that is [null]
    or [undefined]; a truthy [vector_layers] that is no list makes
    [loaded] throw; without a truthy [vector_layers] the result has
    neither field. *)
Theorem loaded_vector_layer_ids (options tileJSON : JSObject) :
  let merged := extend tileJSON options in
  match prop merged "vector_layers" with
  | VArr layers =>
      match loaded options None (Some tileJSON) with
      | Normal (Some (CallbackResult result)) =>
          result !! "vectorLayers" = Some (VArr layers) /\
          exists ids,
            result !! "vectorLayerIds" = Some (VArr ids) /\
            List.length ids = List.length layers /\
            forall n layer, layers !! n = Some layer ->
              exists i, member layer "id" = Normal i /\ ids !! n = Some i
      | Normal _ => False
      | Throw _ =>
          exists layer, layer ∈ layers /\ (layer = VUndefined \/ layer = VNull)
      end
  | other =>
      match loaded options None (Some tileJSON) with
      | Normal (Some (CallbackResult result)) =>
          truthy other = false /\
          result !! "vectorLayers" = None /\ result !! "vectorLayerIds" = None
      | Normal _ => False
      | Throw _ => truthy other = true
      end
  end.
Proof.
  intros merged. unfold loaded, with_vector_layers. fold merged.
  assert (Hnone : forall r : JSObject,
            r = pick merged recognized ->
            (<["tiles" := canonicalizeTileset r (prop options "url")]> r)
              !! "vectorLayers" = None /\
            (<["tiles" := canonicalizeTileset r (prop options "url")]> r)
              !! "vectorLayerIds" = None).
  { intros r ->. rewrite !lookup_insert_ne by discriminate.
    rewrite !pick_lookup. split; decide_member; reflexivity. }
  destruct (prop merged "vector_layers") as [| |b|n|s|layers|fields] eqn:Hv;
    cbn [truthy].
  - split; [reflexivity | apply Hnone; reflexivity].
  - split; [reflexivity | apply Hnone; reflexivity].
  - destruct b; [reflexivity|].
    split; [reflexivity | apply Hnone; reflexivity].
  - destruct (negb (n =? 0)); [reflexivity|].
    split; [reflexivity | apply Hnone; reflexivity].
  - destruct (negb (String.eqb s "")); [reflexivity|].
    split; [reflexivity | apply Hnone; reflexivity].
  - destruct (layer_ids layers) as [ids|m] eqn:Hl.
    + split.
      * rewrite lookup_insert_ne by discriminate.
        rewrite lookup_insert_ne by discriminate. apply lookup_insert_eq.
      * exists ids. split; [|split].
        -- rewrite lookup_insert_ne by discriminate. apply lookup_insert_eq.
        -- apply layer_ids_length, Hl.
        -- intros n layer Hn. apply (layer_ids_lookup layers ids n layer Hl Hn).
    + apply (layer_ids_throws layers m Hl).
  - reflexivity.
Qed.

End LoaderMore.

(** ** More on the construction of a source *)

(** X4: of the options, the constructor puts only [url], [scheme],
    [tileSize], [promoteId] and [zoomoffset] among the descriptor
    properties of the source: every other descriptor property of a new
    source is the default whatever the options say (a [minzoom] or
    [tiles] option reaches them only when the metadata are loaded).
    Beside the descriptor it keeps [options.collectResourceTiming] and
    every option ([type] being ['vector'] when the options name none) in
    its private fields, and the identifier it was given; the new source
    is not loaded and has no tile bounds, no request and no worker
    yet. *)
Theorem constructor_copies_five_options (name : string) (options : JSObject) :
  match constructor name options with
  | Normal s =>
      (forall k,
         props s !! k =
         if decide (k ∈ ["url"; "scheme"; "tileSize"; "promoteId"; "zoomoffset"])
         then match options !! k with
              | Some v => Some v
              | None => defaults !! k
              end
         else defaults !! k) /\
      _collectResourceTiming s = prop options "collectResourceTiming" /\
      (forall k,
         _options s !! k =
         match options !! k with
         | Some v => Some v
         | None => if decide (k = "type") then Some (VStr "vector") else None
         end) /\
      id s = name /\
      _loaded s = false /\
      tileBounds s = None /\
      _tileJSONRequest s = None /\
      _tileWorkers s = ∅
  | Throw _ => True
  end.
Proof.
  unfold constructor.
  destruct (negb (is_number _ 512)); [exact I|].
  cbn [props _collectResourceTiming _options id _loaded tileBounds
       _tileJSONRequest _tileWorkers].
  split; [intros k; apply constructor_props_lookup|].
  split; [reflexivity|]. split; [|repeat split].
  intros k. rewrite extend_lookup.
  destruct (options !! k); [reflexivity|].
  destruct (decide (k = "type")) as [->|Hne].
  - apply lookup_singleton_eq.
  - apply lookup_singleton_ne. congruence.
Qed.

Lemma extend_empty (o : JSObject) : extend ∅ o = o.
Proof.
  apply map_eq. intros k. rewrite extend_lookup, lookup_empty.
  destruct (o !! k); reflexivity.
Qed.

(** X5: [serialize] of a new source gives the options back, with the
    [type] ['vector'] added when the options have no [type] of their
    own. *)
Theorem serialize_returns_options `{RequestManager} `{Collaborators}
    (name : string) (options : JSObject) (w : World) (k : string) :
  match constructor name options with
  | Normal s =>
      serialize (with_this s w) !! k =
      match options !! k with
      | Some v => Some v
      | None => if decide (k = "type") then Some (VStr "vector") else None
      end
  | Throw _ => True
  end.
Proof.
  unfold constructor.
  destruct (negb (is_number _ 512)); [exact I|].
  unfold serialize, with_this. cbn [this _options].
  rewrite extend_empty, extend_lookup.
  destruct (options !! k); [reflexivity|].
  destruct (decide (k = "type")) as [->|Hne].
  - apply lookup_singleton_eq.
  - apply lookup_singleton_ne. congruence.
Qed.

(** ** More on the metadata life cycle *)

Section LifecycleMore.
Context `{RequestManager} `{Collaborators}.
Import LoadTileJSON.

Ltac open_world w :=
  destruct w as [[name0 props0 options0 timing0 bounds0 request0 loaded0
                  workers0 deduped0] map0 dispatcher0 browser0 heap0 trace0].

Ltac world_steps :=
  cbn [with_this with_dispatcher with_browser with_heap with_trace
       with_props with_options with_tileBounds with_tileJSONRequest
       with_loaded with_tileWorkers with_deduped log store
       this the_map dispatcher browser heap trace
       id props _options _collectResourceTiming tileBounds
       _tileJSONRequest _loaded _tileWorkers _deduped
       pending next_handle requested fst snd].

(** [load] for options with a URL. *)
Ltac world_steps_in Hyp :=
  cbn [with_this with_dispatcher with_browser with_heap with_trace
       with_props with_options with_tileBounds with_tileJSONRequest
       with_loaded with_tileWorkers with_deduped log store
       this the_map dispatcher browser heap trace
       id props _options _collectResourceTiming tileBounds
       _tileJSONRequest _loaded _tileWorkers _deduped
       pending next_handle requested fst snd] in Hyp.

Lemma load_with_url (w : World) :
  truthy (prop (_options (this w)) "url") = true ->
  load w =
  with_tileJSONRequest (Some (next_handle (browser w)))
    (with_browser
       (snd (getJSON (transformRequest
                        (normalizeSourceURL (prop (_options (this w)) "url"))
                        ResourceSource)
                     (_options (this w)) tt (browser w)))
       (log (Fire "dataloading" [("dataType", "source")])
            (with_loaded false w))).
Proof.
  intros Hurl. open_world w. world_steps_in Hurl.
  unfold load, loadTileJSON. world_steps. rewrite Hurl.
  unfold getJSON. world_steps. reflexivity.
Qed.

(** [load] for options without a URL. *)
Lemma load_without_url (w : World) :
  truthy (prop (_options (this w)) "url") = false ->
  load w =
  with_tileJSONRequest (Some (next_handle (browser w)))
    (with_browser
       (snd (frame (_options (this w)) tt (browser w)))
       (log (Fire "dataloading" [("dataType", "source")])
            (with_loaded false w))).
Proof.
  intros Hurl. open_world w. world_steps_in Hurl.
  unfold load, loadTileJSON. world_steps. rewrite Hurl.
  unfold frame. world_steps. reflexivity.
Qed.

(** X6: a metadata fetch that fails is reported once and not retried:
    the source counts as loaded, holds no request, has fired the error
    and nothing else, and its descriptor is as before.  A response that
    brings neither an error nor a document is not reported at all: the
    source stays unloaded and keeps the handle of the request that is
    gone. *)
Theorem metadata_failure (w : World) :
  truthy (prop (_options (this w)) "url") = true ->
  let h := next_handle (browser w) in
  let u := transformRequest
             (normalizeSourceURL (prop (_options (this w)) "url"))
             ResourceSource in
  (forall e tileJSON,
     let w' := json_response h (Some e) tileJSON (load w) in
     _loaded (this w') = true /\
     _tileJSONRequest (this w') = None /\
     props (this w') = props (this w) /\
     tileBounds (this w') = tileBounds (this w) /\
     trace w' = (trace w ++ [Fire "dataloading" [("dataType", "source")];
                             FireError e])%list /\
     requested (browser w') = (requested (browser w) ++ [u])%list /\
     pending (browser w') !! h = None) /\
  (let w' := json_response h None None (load w) in
   _loaded (this w') = false /\
   _tileJSONRequest (this w') = Some h /\
   pending (browser w') !! h = None /\
   trace w' = (trace w ++ [Fire "dataloading" [("dataType", "source")]])%list).
Proof.
  intros Hurl h u. rewrite (load_with_url w Hurl).
  subst h u. open_world w. world_steps_in Hurl. split.
  - intros e tileJSON. unfold json_response, respond, getJSON. world_steps.
    rewrite lookup_insert_eq. cbn [loaded].
    unfold load_callback, cancel. world_steps.
    rewrite <- app_assoc. repeat split. apply lookup_delete_eq.
  - unfold json_response, respond, getJSON. world_steps.
    rewrite lookup_insert_eq. cbn [loaded].
    unfold cancel. world_steps.
    repeat split. apply lookup_delete_eq.
Qed.


Lemma loaded_result_fields (options : JSObject) (err : option Error)
    (tileJSON : option JSObject) (result : JSObject) (k : string) :
  loaded options err tileJSON = Normal (Some (CallbackResult result)) ->
  k ∉ descriptor_fields ->
  result !! k = None.
Proof.
  unfold loaded, descriptor_fields. intros Hl Hk.
  destruct err; [discriminate Hl|].
  destruct tileJSON as [tj|]; [|discriminate Hl].
  destruct (with_vector_layers (extend tj options)
              (pick (extend tj options) recognized)) as [r|] eqn:Hr;
    [|discriminate Hl].
  injection Hl as <-.
  assert (Hrec : k ∉ recognized) by (intros Hin; apply Hk, elem_of_app; auto).
  assert (k <> "tiles") as Hne.
  { intros ->. apply Hrec. unfold recognized. constructor. }
  assert (k <> "vectorLayers" /\ k <> "vectorLayerIds") as [Hk1 Hk2].
  { split; intros ->; apply Hk, elem_of_app; right; repeat constructor. }
  rewrite lookup_insert_ne by congruence.
  rewrite (with_vector_layers_lookup _ _ _ k Hr Hk1 Hk2).
  rewrite pick_lookup, decide_False by exact Hrec. reflexivity.
Qed.

Lemma descriptor_update_browser (b : Browser unit) (w : World) :
  descriptor_update w (with_browser b w).
Proof. unfold descriptor_update. repeat split; auto. Qed.

Lemma descriptor_update_callback (options : JSObject) (err : option Error)
    (tileJSON : option JSObject) (d : Delivery) (b : Browser unit)
    (w : World) :
  loaded options err tileJSON = Normal (Some d) ->
  descriptor_update w (load_callback d (with_browser b w)).
Proof.
  intros Hl. destruct d as [e|result].
  - unfold descriptor_update. repeat split; auto.
  - open_world w. unfold load_callback. world_steps.
    assert (Hk : forall k, k ∉ descriptor_fields ->
              extend props0 result !! k = props0 !! k).
    { intros k Hk. rewrite extend_lookup.
      rewrite (loaded_result_fields options err tileJSON result k Hl Hk).
      reflexivity. }
    assert (Hs : forall k, is_Some (props0 !! k) ->
              is_Some (extend props0 result !! k)).
    { intros k Hsome. rewrite extend_lookup.
      destruct (result !! k); [eexists; reflexivity | exact Hsome]. }
    unfold descriptor_update.
    destruct (truthy (prop result "bounds")); world_steps;
      (split; [exact Hk|]); (split; [exact Hs|]);
      repeat split; auto; try (intros _; eexists; reflexivity).
Qed.

(** X8: whatever a metadata response or an animation frame brings, it
    changes no property of the source outside the recognized TileJSON
    fields and the two layer fields, it removes no property and no tile
    bounds that the source had, and it leaves the identifier, the options,
    the worker table, the deduplication table, the tiles and the
    dispatcher alone. *)
Theorem metadata_changes_descriptor_only (h : Cancelable)
    (err : option Error) (tileJSON : option JSObject) (w : World) :
  descriptor_update w (json_response h err tileJSON w) /\
  descriptor_update w (next_frame h w).
Proof.
  split.
  - unfold json_response, respond.
    destruct (pending (browser w) !! h) as [[u o k|o k]|];
      try apply descriptor_update_browser.
    destruct (loaded o err tileJSON) as [[d|]|m] eqn:Hl;
      try apply descriptor_update_browser.
    apply (descriptor_update_callback o err tileJSON d _ w Hl).
  - unfold next_frame, animation_frame.
    destruct (pending (browser w) !! h) as [[u o k|o k]|];
      try apply descriptor_update_browser.
    destruct (loaded o None (Some o)) as [[d|]|m] eqn:Hl;
      try apply descriptor_update_browser.
    apply (descriptor_update_callback o None (Some o) d _ w Hl).
Qed.

Lemma load_keeps (w : World) :
  _options (this (load w)) = _options (this w) /\
  props (this (load w)) = props (this w) /\
  heap (load w) = heap w /\
  requested (browser (load w)) =
    (requested (browser w)
       ++ if truthy (prop (_options (this w)) "url")
          then [transformRequest
                  (normalizeSourceURL (prop (_options (this w)) "url"))
                  ResourceSource]
          else [])%list.
Proof.
  destruct (truthy (prop (_options (this w)) "url")) eqn:Hurl.
  - rewrite (load_with_url w Hurl). open_world w. unfold getJSON.
    world_steps. repeat split.
  - rewrite (load_without_url w Hurl). open_world w. unfold frame.
    world_steps. rewrite app_nil_r. repeat split.
Qed.

Lemma setSourceProperty_keeps (c : PropertyChange) (w : World) :
  _options (this (setSourceProperty c w)) = _options (this (apply_change c w)) /\
  props (this (setSourceProperty c w)) = props (this (apply_change c w)) /\
  heap (setSourceProperty c w) = heap w /\
  requested (browser (setSourceProperty c w)) =
    (requested (browser w)
       ++ if truthy (prop (_options (this (apply_change c w))) "url")
          then [transformRequest
                  (normalizeSourceURL
                     (prop (_options (this (apply_change c w))) "url"))
                  ResourceSource]
          else [])%list.
Proof.
  unfold setSourceProperty.
  set (w1 := match _tileJSONRequest (this w) with
             | Some request => with_browser (cancel request (browser w)) w
             | None => w
             end).
  set (w2 := apply_change c w1).
  pose proof (clearTiles_spec (sourceCaches (the_map w2)) w2) as Hc.
  cbv zeta in Hc. destruct Hc as (_ & Hthis & Hb & _).
  assert (Hheap : forall caches w0,
            heap (foldl (fun w sourceCache => log (ClearTiles sourceCache) w)
                        w0 caches) = heap w0).
  { induction caches as [|x xs IH]; intros w0; cbn [foldl];
      [reflexivity | rewrite IH; reflexivity]. }
  set (w3 := foldl (fun w sourceCache => log (ClearTiles sourceCache) w) w2
                   (sourceCaches (the_map w2))) in *.
  destruct (load_keeps w3) as (Ho & Hp & Hh & Hq).
  assert (H2 : this w2 = this (apply_change c w) /\ heap w2 = heap w /\
               requested (browser w2) = requested (browser w)).
  { unfold w2, w1. destruct c, (_tileJSONRequest (this w)); repeat split. }
  destruct H2 as (H2 & H2h & H2q).
  rewrite Ho, Hp, Hh, Hq, Hthis, Hb, H2, H2q.
  unfold w3. rewrite Hheap, H2h. repeat split.
Qed.

Lemma serialize_options (w : World) : serialize w = _options (this w).
Proof. unfold serialize. apply extend_empty. Qed.

Lemma completed_task_keeps_options (h : Cancelable) (err : option Error)
    (tileJSON : option JSObject) (w : World) :
  _options (this (json_response h err tileJSON w)) = _options (this w) /\
  _options (this (next_frame h w)) = _options (this w).
Proof.
  assert (Hb : forall b, _options (this (with_browser b w)) = _options (this w))
    by reflexivity.
  assert (Hd : forall o e t d b,
            loaded o e t = Normal (Some d) ->
            _options (this (load_callback d (with_browser b w)))
            = _options (this w)).
  { intros o e t d b Hl.
    destruct (descriptor_update_callback o e t d b w Hl)
      as (_ & _ & _ & _ & Ho & _). exact Ho. }
  split.
  - unfold json_response, respond.
    destruct (pending (browser w) !! h) as [[u o k|o k]|]; try apply Hb.
    destruct (loaded o err tileJSON) as [[d|]|m] eqn:Hl; try apply Hb.
    apply (Hd o err tileJSON d _ Hl).
  - unfold next_frame, animation_frame.
    destruct (pending (browser w) !! h) as [[u o k|o k]|]; try apply Hb.
    destruct (loaded o None (Some o)) as [[d|]|m] eqn:Hl; try apply Hb.
    apply (Hd o None (Some o) d _ Hl).
Qed.

(** X9: what [serialize] returns is changed by [setUrl] and [setTiles]
    only, each in its one field; loading metadata, completed or
    cancelled, never shows in it. *)
Theorem serialize_follows_setters (w : World) (op : Operation) :
  serialize (step w op) =
  match op with
  | CallSetUrl url => <["url" := VStr url]> (serialize w)
  | CallSetTiles tiles => <["tiles" := VArr (VStr <$> tiles)]> (serialize w)
  | _ => serialize w
  end.
Proof.
  rewrite !serialize_options.
  destruct op as [url|tiles| |h err tileJSON|h]; cbn [step].
  - unfold setUrl.
    destruct (setSourceProperty_keeps (UrlChange url) w) as (-> & _).
    open_world w. reflexivity.
  - unfold setTiles.
    destruct (setSourceProperty_keeps (TilesChange tiles) w) as (-> & _).
    open_world w. reflexivity.
  - unfold onRemove. destruct (_tileJSONRequest (this w)); reflexivity.
  - apply (completed_task_keeps_options h err tileJSON w).
  - apply (completed_task_keeps_options h None None w).
Qed.

(** X10: [setUrl] with a URL that is not the empty string starts one
    metadata fetch, for that URL; with the empty string it starts none.
    [setTiles] fetches again from the URL of the options when they have
    one, and fetches nothing when they have none. *)
Theorem setters_and_fetches (w : World) :
  (forall url,
     requested (browser (setUrl url w)) =
     (requested (browser w)
        ++ if String.eqb url "" then []
           else [transformRequest (normalizeSourceURL (VStr url))
                                  ResourceSource])%list) /\
  (forall tiles,
     requested (browser (setTiles tiles w)) =
     (requested (browser w)
        ++ if truthy (prop (_options (this w)) "url")
           then [transformRequest
                   (normalizeSourceURL (prop (_options (this w)) "url"))
                   ResourceSource]
           else [])%list).
Proof.
  split.
  - intros url. unfold setUrl.
    destruct (setSourceProperty_keeps (UrlChange url) w) as (_ & _ & _ & ->).
    assert (Hp : prop (_options (this (apply_change (UrlChange url) w))) "url"
                 = VStr url).
    { open_world w. cbn [apply_change]. world_steps.
      unfold prop. rewrite lookup_insert_eq. reflexivity. }
    rewrite Hp. cbn [truthy]. destruct (String.eqb url ""); reflexivity.
  - intros tiles. unfold setTiles.
    destruct (setSourceProperty_keeps (TilesChange tiles) w) as (_ & _ & _ & ->).
    assert (Hp : prop (_options (this (apply_change (TilesChange tiles) w))) "url"
                 = prop (_options (this w)) "url").
    { open_world w. cbn [apply_change]. world_steps.
      unfold prop. rewrite lookup_insert_ne by discriminate. reflexivity. }
    rewrite Hp. reflexivity.
Qed.

(** X11: [onRemove] cancels the metadata request that the source holds
    and forgets it, fires nothing and leaves the loaded mark and the
    descriptor alone; the response or the frame of that request then
    changes nothing; without a request, and when called again, it does
    nothing. *)
Theorem onRemove_cancels (w : World) :
  let w' := onRemove w in
  _tileJSONRequest (this w') = None /\
  trace w' = trace w /\
  _loaded (this w') = _loaded (this w) /\
  props (this w') = props (this w) /\
  onRemove w' = w' /\
  match _tileJSONRequest (this w) with
  | Some h =>
      pending (browser w') !! h = None /\
      (forall err tileJSON, json_response h err tileJSON w' = w') /\
      next_frame h w' = w'
  | None => w' = w
  end.
Proof.
  unfold onRemove. destruct (_tileJSONRequest (this w)) as [h|] eqn:Hq.
  - cbv zeta.
    set (w' := with_tileJSONRequest None
                 (with_browser (cancel h (browser w)) w)).
    assert (Hp : pending (browser w') !! h = None).
    { unfold w'. open_world w. unfold cancel. world_steps.
      apply lookup_delete_eq. }
    repeat split; try exact Hp.
    + intros err tileJSON. apply stale_no_delivery, Hp.
    + apply stale_no_delivery, Hp.
  - cbv zeta. rewrite Hq. repeat split; assumption.
Qed.

Lemma loading_while_requesting_load (w : World) :
  loading_while_requesting (load w).
Proof.
  intros h _. destruct (load_spec w) as (_ & _ & Hl & _). exact Hl.
Qed.

Lemma loading_while_requesting_step (w : World) (op : Operation) :
  loading_while_requesting w -> loading_while_requesting (step w op).
Proof.
  intros Hinv.
  destruct op as [url|tiles| |h err tileJSON|h]; cbn [step].
  - apply loading_while_requesting_load.
  - apply loading_while_requesting_load.
  - unfold onRemove. destruct (_tileJSONRequest (this w)) eqn:Hq.
    + intros h Hh. discriminate Hh.
    + exact Hinv.
  - unfold json_response, respond.
    destruct (pending (browser w) !! h) as [[u o k|o k]|];
      try exact Hinv.
    destruct (loaded o err tileJSON) as [[d|]|m]; try exact Hinv.
    intros h' Hh. rewrite load_callback_request in Hh. discriminate Hh.
  - unfold next_frame, animation_frame.
    destruct (pending (browser w) !! h) as [[u o k|o k]|];
      try exact Hinv.
    destruct (loaded o None (Some o)) as [[d|]|m]; try exact Hinv.
    intros h' Hh. rewrite load_callback_request in Hh. discriminate Hh.
Qed.

(** X12: from the moment a source is added to the map, whatever is called
    on it and whatever the browser delivers, a source that holds a
    metadata request is not loaded. *)
Theorem request_held_means_not_loaded (w : World) (ops : list Operation) :
  loading_while_requesting (run ops (onAdd w)).
Proof.
  unfold onAdd.
  assert (Hrun : forall l w0, loading_while_requesting w0 ->
                              loading_while_requesting (run l w0)).
  { induction l as [|op l IH]; intros w0 Hw0; [exact Hw0|].
    apply IH, loading_while_requesting_step, Hw0. }
  apply Hrun, loading_while_requesting_load.
Qed.

End LifecycleMore.

(** ** More on tiles *)

Section TilesMore.
Context `{RequestManager} `{Collaborators}.

Lemma count_app (p : Event -> bool) (l1 l2 : list Event) :
  count p (l1 ++ l2) = (count p l1 + count p l2)%nat.
Proof. unfold count. rewrite List.filter_app, length_app. reflexivity. Qed.

Lemma count_none (p : Event -> bool) (l : list Event) :
  Forall (fun e => p e = false) l -> count p l = 0%nat.
Proof.
  unfold count. induction 1 as [|e l He _ IH]; cbn [List.filter];
    [reflexivity | rewrite He; exact IH].
Qed.

(** What [loadTile] may add to the trace: nothing, a message, or the
    start of a fetch. *)
Lemma loadTile_calls (w : World) (r : nat) (callback : Callback) :
  exists added,
    trace (loadTile w r callback) = (trace w ++ added)%list /\
    (List.length added <= 1)%nat /\
    Forall (fun e => is_send e = true \/ is_fetch e = true) added.
Proof.
  unfold loadTile. destruct (heap w !! r) as [tile|];
    [|exists []; rewrite app_nil_r; split; [reflexivity | split; [cbn; lia | constructor]]].
  destruct (negb (has_actor tile) || String.eqb (Tile.state tile) "expired").
  - unfold assigned_actor.
    destruct (_tileWorkers (this w) !! tile_url w tile) as [a|];
      [|destruct (getActor (cursor (dispatcher w))) as [a c]];
      cbn [fst snd ready dispatcher with_dispatcher with_tileWorkers with_this];
      (destruct (ready (dispatcher w)); cbn [negb];
       [ eexists; split; [reflexivity | split; [cbn; lia | repeat constructor]]
       | unfold loadVectorTile;
         cbn [_deduped this with_tileWorkers with_this with_dispatcher];
         destruct (entries (_deduped (this w)) !! _);
         [ exists []; rewrite app_nil_r; split;
           [reflexivity | split; [cbn; lia | constructor]]
         | eexists; split; [reflexivity | split; [cbn; lia |]];
           constructor; [right; reflexivity | constructor] ] ]).
  - destruct (String.eqb (Tile.state tile) "loading").
    + exists []. rewrite app_nil_r.
      split; [reflexivity | split; [cbn; lia | constructor]].
    + destruct (Tile.actor tile).
      * eexists. split; [reflexivity | split; [cbn; lia | repeat constructor]].
      * exists []. rewrite app_nil_r.
        split; [reflexivity | split; [cbn; lia | constructor]].
Qed.

(** X13: [loadTile] returns before anything comes back: it makes at most
    one call, which is a message to a worker or the start of a fetch, and
    it never calls a callback or hands data to a tile itself. *)
Theorem loadTile_is_asynchronous (w : World) (r : nat) (callback : Callback) :
  let added := new_events w (loadTile w r callback) in
  (List.length added <= 1)%nat /\
  Forall (fun e => is_send e = true \/ is_fetch e = true) added /\
  count is_invoke added = 0%nat /\
  count is_materialization added = 0%nat.
Proof.
  destruct (loadTile_calls w r callback) as (added & Ht & Hlen & Hall).
  cbv zeta. rewrite (new_events_app _ _ added Ht).
  split; [exact Hlen|]. split; [exact Hall|].
  split; apply count_none; eapply Forall_impl; try exact Hall;
    intros [] [Hs|Hf]; try discriminate Hs; try discriminate Hf; reflexivity.
Qed.

(** *** Other tiles *)

Lemma store_other (r r' : nat) (t : Tile.t) (w : World) :
  r' <> r -> heap (store r t w) !! r' = heap w !! r'.
Proof.
  intros Hne. unfold store, with_heap. cbn [heap].
  apply lookup_insert_ne. congruence.
Qed.

Lemma on_tile_other (r r' : nat) (f : Tile.t -> Tile.t) (w : World) :
  r' <> r -> heap (on_tile r f w) !! r' = heap w !! r'.
Proof.
  intros Hne. unfold on_tile. destruct (heap w !! r);
    [apply store_other, Hne | reflexivity].
Qed.

Lemma loadVectorTile_keeps (params : Params.t) (k : Continuation) (w : World) :
  let w' := snd (loadVectorTile params k w) in
  heap w' = heap w /\ dispatcher w' = dispatcher w /\
  props (this w') = props (this w) /\
  _tileWorkers (this w') = _tileWorkers (this w) /\
  id (this w') = id (this w).
Proof.
  unfold loadVectorTile.
  destruct (entries (_deduped (this w)) !! _); cbn [snd]; repeat split.
Qed.

(** A fresh dispatch, whatever the readiness of the dispatcher. *)
Lemma loadTile_fresh_spec (w : World) (r : nat) (tile : Tile.t)
    (callback : Callback) :
  heap w !! r = Some tile ->
  has_actor tile = false \/ Tile.state tile = "expired" ->
  let a := fst (assigned_actor (tile_url w tile) w) in
  let w' := loadTile w r callback in
  (exists tile', heap w' !! r = Some tile' /\ Tile.actor tile' = Some a) /\
  _tileWorkers (this w') = <[tile_url w tile := a]> (_tileWorkers (this w)) /\
  dispatcher w' = dispatcher (snd (assigned_actor (tile_url w tile) w)) /\
  props (this w') = props (this w) /\
  forall r', r' <> r -> heap w' !! r' = heap w !! r'.
Proof.
  intros Hr Hf. cbv zeta.
  destruct (assigned_actor_keeps (tile_url w tile) w) as (Hthis & _ & Hheap & _).
  cbv zeta in Hthis, Hheap.
  destruct (ready (dispatcher w)) eqn:Hready.
  - rewrite (loadTile_fresh_ready w r tile callback Hr Hf Hready).
    set (wa := snd (assigned_actor (tile_url w tile) w)) in *.
    split; [eexists; split; [apply store_lookup | reflexivity]|].
    unfold store, log, with_tileWorkers, with_this.
    cbn [this heap dispatcher props _tileWorkers with_heap with_trace].
    rewrite Hthis. repeat split.
    intros r' Hne. rewrite lookup_insert_ne by congruence.
    rewrite Hheap. reflexivity.
  - rewrite (loadTile_fresh_cold w r tile callback Hr Hf Hready).
    set (wa := snd (assigned_actor (tile_url w tile) w)) in *.
    set (w2 := with_tileWorkers _ wa).
    destruct (loadVectorTile_keeps (tile_params w tile)
                (Fetched r callback (tile_params w tile)) w2)
      as (Hh & Hd & Hp & Hw & _).
    cbv zeta in Hh, Hd, Hp, Hw.
    split; [eexists; split; [apply store_lookup | reflexivity]|].
    unfold store. cbn [this heap dispatcher with_heap].
    rewrite Hd, Hp, Hw, Hh.
    unfold w2, with_tileWorkers, with_this.
    cbn [this heap dispatcher props _tileWorkers].
    rewrite Hthis. repeat split.
    intros r' Hne. rewrite lookup_insert_ne by congruence.
    rewrite Hheap. reflexivity.
Qed.

Lemma loadTile_other (w : World) (r r' : nat) (callback : Callback) :
  r' <> r -> heap (loadTile w r callback) !! r' = heap w !! r'.
Proof.
  intros Hne. destruct (heap w !! r) as [tile|] eqn:Hr;
    [|unfold loadTile; rewrite Hr; reflexivity].
  destruct (has_actor tile) eqn:Hact.
  - unfold has_actor in Hact.
    destruct (Tile.actor tile) as [a|] eqn:Ha; [|discriminate Hact].
    destruct (String.eqb_spec (Tile.state tile) "expired") as [He|He].
    + destruct (loadTile_fresh_spec w r tile callback Hr (or_intror He))
        as (_ & _ & _ & _ & Hother). apply Hother, Hne.
    + destruct (String.eqb_spec (Tile.state tile) "loading") as [Hl|Hl].
      * rewrite (loadTile_loading w r tile a callback Hr Hl Ha).
        apply store_other, Hne.
      * rewrite (loadTile_reload w r tile a callback Hr Ha Hl He).
        rewrite store_other by exact Hne. reflexivity.
  - destruct (loadTile_fresh_spec w r tile callback Hr (or_introl Hact))
      as (_ & _ & _ & _ & Hother). apply Hother, Hne.
Qed.

Lemma cancel_keeps (request : Request) (w : World) :
  heap (cancel request w) = heap w /\
  exists added,
    trace (cancel request w) = (trace w ++ added)%list /\
    Forall (fun e => is_invoke e = false /\ is_send e = false) added.
Proof.
  destruct request as [key waiter|message]; cbn [cancel].
  - destruct (entries (_deduped (this w)) !! key) as [waiters|].
    + destruct (filter (fun x => fst x <> waiter) waiters); split;
        try reflexivity.
      * eexists. split; [reflexivity | repeat constructor].
      * exists []. rewrite app_nil_r. split; [reflexivity | constructor].
    + split; [reflexivity|]. exists []. rewrite app_nil_r.
      split; [reflexivity | constructor].
  - split; [reflexivity|]. eexists. split; [reflexivity | repeat constructor].
Qed.

Lemma done_other (w : World) (r r' : nat) (callback : Callback)
    (err : option Error) (data : option TileResult) :
  r' <> r -> heap (done w r callback err data) !! r' = heap w !! r'.
Proof.
  intros Hne. destruct (heap w !! r) as [tile|] eqn:Hr;
    [|unfold done; rewrite Hr; reflexivity].
  destruct (Tile.aborted tile) eqn:Hab.
  - rewrite (done_aborted w r tile callback err data Hr Hab).
    apply (store_other r r' _ w Hne).
  - destruct (fatal err) eqn:Hf.
    + rewrite (done_fatal w r tile callback err data Hr Hab Hf).
      apply (store_other r r' _ w Hne).
    + rewrite (done_success w r tile callback err data Hr Hab Hf).
      destruct (Tile.reloadCallback (materialized w tile data)) as [c2|].
      * rewrite on_tile_other, loadTile_other by exact Hne.
        apply (store_other r r' _ w Hne).
      * apply (store_other r r' _ w Hne).
Qed.

(** X14: the tiles are independent of each other: a call of [loadTile],
    a completion, [abortTile] and [unloadTile] for one tile leave every
    other tile as it is. *)
Theorem tiles_are_independent (w : World) (r r' : nat) (callback : Callback)
    (err : option Error) (data : option TileResult) :
  r' <> r ->
  heap (loadTile w r callback) !! r' = heap w !! r' /\
  heap (done w r callback err data) !! r' = heap w !! r' /\
  heap (abortTile r w) !! r' = heap w !! r' /\
  heap (unloadTile r w) !! r' = heap w !! r'.
Proof.
  intros Hne. split; [apply loadTile_other, Hne|].
  split; [apply done_other, Hne|]. split.
  - unfold abortTile. destruct (heap w !! r) as [tile|]; [|reflexivity].
    assert (Hreq : heap (match Tile.request tile with
                         | Some request =>
                             store r (Tile.set_request None tile)
                                   (cancel request w)
                         | None => w
                         end) !! r' = heap w !! r').
    { destruct (Tile.request tile) as [q|]; [|reflexivity].
      rewrite store_other by exact Hne.
      destruct (cancel_keeps q w) as [-> _]. reflexivity. }
    destruct (Tile.actor tile); exact Hreq.
  - unfold unloadTile. destruct (heap w !! r) as [tile|]; [|reflexivity].
    destruct (Tile.actor (unloadVectorData tile));
      apply (store_other r r' _ w Hne).
Qed.

(** *** What a completion adds to the trace *)

Lemma done_events (w : World) (r : nat) (tile : Tile.t) (callback : Callback)
    (err : option Error) (data : option TileResult) :
  heap w !! r = Some tile ->
  exists added,
    (List.length added <= 1)%nat /\
    Forall (fun e => is_send e = true \/ is_fetch e = true) added /\
    new_events w (done w r callback err data) =
    if Tile.aborted tile then [Invoke callback None]
    else if fatal err then [Invoke callback err]
    else (expiry_calls w r data
            ++ [LoadVectorData r data; CacheEntryPossiblyAdded;
                Invoke callback None] ++ added)%list.
Proof.
  intros Hr. destruct (Tile.aborted tile) eqn:Hab.
  - exists []. split; [cbn; lia|]. split; [constructor|].
    rewrite (done_aborted w r tile callback err data Hr Hab).
    apply new_events_app. reflexivity.
  - destruct (fatal err) eqn:Hf.
    + exists []. split; [cbn; lia|]. split; [constructor|].
      rewrite (done_fatal w r tile callback err data Hr Hab Hf).
      apply new_events_app. reflexivity.
    + rewrite (done_success w r tile callback err data Hr Hab Hf).
      destruct (Tile.reloadCallback (materialized w tile data)) as [c2|].
      * destruct (loadTile_calls (delivered w r tile callback data) r c2)
          as (added & Ht & Hlen & Hall).
        exists added. split; [exact Hlen|]. split; [exact Hall|].
        apply new_events_app. rewrite on_tile_trace, Ht.
        unfold delivered. cbn [trace with_trace].
        rewrite <- !app_assoc. reflexivity.
      * exists []. split; [cbn; lia|]. split; [constructor|].
        apply new_events_app. reflexivity.
Qed.

Lemma expiry_calls_count (p : Event -> bool) (w : World) (r : nat)
    (data : option TileResult) :
  (forall t d, p (SetExpiryData t d) = false) ->
  count p (expiry_calls w r data) = 0%nat.
Proof.
  intros Hp. unfold expiry_calls. destruct data; [|reflexivity].
  destruct (_refreshExpiredTiles (the_map w)); [|reflexivity].
  unfold count. cbn [List.filter]. rewrite Hp. reflexivity.
Qed.

Lemma calls_count (p : Event -> bool) (added : list Event) :
  (forall a t x k q, p (Send a t x k q) = false) ->
  (forall key, p (NetworkFetch key) = false) ->
  Forall (fun e => is_send e = true \/ is_fetch e = true) added ->
  count p added = 0%nat.
Proof.
  intros Hs Hf Hall. apply count_none. eapply Forall_impl; [exact Hall|].
  intros [] [H1|H1]; try discriminate H1; auto.
Qed.

(** X15: every completion calls the callback of its request exactly once:
    with a null error when the tile was aborted, with the error when it is
    not a 404, and with a null error otherwise; no other callback is
    called by it. *)
Theorem done_calls_back_once (w : World) (r : nat) (tile : Tile.t)
    (callback : Callback) (err : option Error) (data : option TileResult) :
  heap w !! r = Some tile ->
  let added := new_events w (done w r callback err data) in
  count is_invoke added = 1%nat /\
  Invoke callback (if Tile.aborted tile then None
                   else if fatal err then err else None) ∈ added.
Proof.
  intros Hr. cbv zeta.
  destruct (done_events w r tile callback err data Hr)
    as (added & _ & Hall & ->).
  destruct (Tile.aborted tile); [split; [reflexivity | constructor]|].
  destruct (fatal err); [split; [reflexivity | constructor]|].
  split.
  - rewrite !count_app.
    rewrite (expiry_calls_count is_invoke) by reflexivity.
    rewrite (calls_count is_invoke added) by (reflexivity || exact Hall).
    reflexivity.
  - apply elem_of_app. right. apply elem_of_app. left.
    repeat constructor.
Qed.

(** X16: a completion hands data to the tile exactly when its tile was
    not aborted and it brings no error other than a 404: then
    [loadVectorData] is called once, with the very data of the completion
    (none for a 404 without data), and [setExpiryData] once if there are
    data and the map refreshes expired tiles; otherwise neither is
    called. *)
Theorem done_materializes_on_success (w : World) (r : nat) (tile : Tile.t)
    (callback : Callback) (err : option Error) (data : option TileResult) :
  heap w !! r = Some tile ->
  let added := new_events w (done w r callback err data) in
  let success := negb (Tile.aborted tile) && negb (fatal err) in
  count is_materialization added = (if success then 1 else 0)%nat /\
  (success = true -> LoadVectorData r data ∈ added) /\
  count is_expiry added =
    (if success then
       match data with
       | Some _ => if _refreshExpiredTiles (the_map w) then 1 else 0
       | None => 0
       end
     else 0)%nat.
Proof.
  intros Hr. cbv zeta.
  destruct (done_events w r tile callback err data Hr)
    as (added & _ & Hall & ->).
  destruct (Tile.aborted tile);
    [split; [reflexivity | split; [discriminate | reflexivity]]|].
  destruct (fatal err);
    [split; [reflexivity | split; [discriminate | reflexivity]]|].
  cbn [negb andb]. split; [|split].
  - rewrite !count_app.
    rewrite (expiry_calls_count is_materialization) by reflexivity.
    rewrite (calls_count is_materialization added)
      by (reflexivity || exact Hall).
    reflexivity.
  - intros _. apply elem_of_app. right. apply elem_of_app. left.
    repeat constructor.
  - rewrite !count_app.
    rewrite (calls_count is_expiry added) by (reflexivity || exact Hall).
    unfold expiry_calls. destruct data; [|reflexivity].
    destruct (_refreshExpiredTiles (the_map w)); reflexivity.
Qed.

(** *** The worker table *)

Lemma tile_url_props (w w' : World) (tile : Tile.t) :
  props (this w') = props (this w) -> tile_url w' tile = tile_url w tile.
Proof. intros Hp. unfold tile_url. rewrite Hp. reflexivity. Qed.

(** X17: between two calls of [afterUpdate], tiles with the same URL go
    to the same worker: when two tiles without an actor (or ['expired'])
    have the same tile URL, the second is given the actor of the first,
    the table holds that actor for the URL, and the dispatcher is not
    asked a second time. *)
Theorem same_url_same_worker (w : World) (r1 r2 : nat) (t1 t2 : Tile.t)
    (c1 c2 : Callback) :
  heap w !! r1 = Some t1 ->
  heap w !! r2 = Some t2 ->
  r1 <> r2 ->
  has_actor t1 = false \/ Tile.state t1 = "expired" ->
  has_actor t2 = false \/ Tile.state t2 = "expired" ->
  tile_url w t1 = tile_url w t2 ->
  let w1 := loadTile w r1 c1 in
  let w2 := loadTile w1 r2 c2 in
  exists a,
    (Tile.actor <$> (heap w2 !! r1)) = Some (Some a) /\
    (Tile.actor <$> (heap w2 !! r2)) = Some (Some a) /\
    _tileWorkers (this w2) !! tile_url w t1 = Some a /\
    dispatcher w2 = dispatcher w1.
Proof.
  intros Hr1 Hr2 Hne Hf1 Hf2 Hurl w1 w2.
  destruct (loadTile_fresh_spec w r1 t1 c1 Hr1 Hf1)
    as ((t1' & Hh1 & Ha1) & Htw & _ & Hp & Hother).
  fold w1 in Hh1, Htw, Hp, Hother.
  set (a := fst (assigned_actor (tile_url w t1) w)) in *.
  assert (Hr2' : heap w1 !! r2 = Some t2).
  { rewrite Hother by congruence. exact Hr2. }
  assert (Hu : tile_url w1 t2 = tile_url w t1).
  { rewrite (tile_url_props w w1 t2 Hp). symmetry. exact Hurl. }
  assert (Has : assigned_actor (tile_url w1 t2) w1 = (a, w1)).
  { unfold assigned_actor. rewrite Hu, Htw, lookup_insert_eq. reflexivity. }
  destruct (loadTile_fresh_spec w1 r2 t2 c2 Hr2' Hf2)
    as ((t2' & Hh2 & Ha2) & Htw2 & Hd2 & _ & Hother2).
  fold w2 in Hh2, Htw2, Hd2, Hother2.
  rewrite Has in Ha2, Htw2, Hd2. cbn [fst snd] in Ha2, Htw2, Hd2.
  exists a. split; [|split; [|split]].
  - rewrite Hother2 by exact Hne. rewrite Hh1. cbn [fmap option_fmap option_map].
    rewrite Ha1. reflexivity.
  - rewrite Hh2. cbn [fmap option_fmap option_map]. rewrite Ha2. reflexivity.
  - rewrite Htw2, Hu. apply lookup_insert_eq.
  - exact Hd2.
Qed.


(** *** Aborting *)

(** X19: [abortTile] cancels the request handle of the tile, if there is
    one, and takes it off the tile; it sends one [abortTile] message with
    the uid of the tile and the type and identifier of the source to the
    actor of the tile, if there is one; it calls no callback, and it
    leaves the actor, the state, the abort mark and the reload slot of
    the tile as they are. *)
Theorem abortTile_cancels_and_tells_worker (w : World) (r : nat)
    (tile : Tile.t) :
  heap w !! r = Some tile ->
  let w' := abortTile r w in
  (exists tile',
     heap w' !! r = Some tile' /\
     Tile.request tile' = None /\
     Tile.actor tile' = Tile.actor tile /\
     Tile.state tile' = Tile.state tile /\
     Tile.aborted tile' = Tile.aborted tile /\
     Tile.reloadCallback tile' = Tile.reloadCallback tile) /\
  new_events w w' =
    (match Tile.request tile with
     | Some request => new_events w (cancel request w)
     | None => []
     end
     ++ match Tile.actor tile with
        | Some a =>
            [Send a "abortTile"
                  (TileRef (Tile.uid tile) (prop (props (this w)) "type")
                           (id (this w)))
                  None false]
        | None => []
        end)%list /\
  (forall message, Tile.request tile = Some (Sent message) ->
     new_events w (cancel (Sent message) w) = [CancelMessage message]) /\
  count is_invoke (new_events w w') = 0%nat.
Proof.
  intros Hr w'. unfold w', abortTile. rewrite Hr.
  assert (Hsent : forall message,
            new_events w (cancel (Sent message) w) = [CancelMessage message]).
  { intros message. apply new_events_app. reflexivity. }
  destruct (Tile.request tile) as [q|] eqn:Hq.
  - destruct (cancel_keeps q w) as (Hheap & added & Ht & Hall).
    rewrite (new_events_app w (cancel q w) added Ht).
    assert (Hprops : props (this (cancel q w)) = props (this w) /\
                     id (this (cancel q w)) = id (this w))
      by (destruct q as [key waiter|message]; [|split; reflexivity];
          cbn [cancel]; destruct (entries (_deduped (this w)) !! key);
          [destruct (filter _ _)|]; split; reflexivity).
    destruct Hprops as [Hprops Hid].
    assert (Hcount : count is_invoke added = 0%nat).
    { apply count_none. eapply Forall_impl; [exact Hall|].
      intros e [He _]. exact He. }
    destruct (Tile.actor tile) as [a|] eqn:Ha.
    + split; [|split; [|split]].
      * eexists. split; [apply store_lookup|].
        repeat split; try reflexivity; exact Ha.
      * apply new_events_app. unfold send, log, store.
        cbn [snd trace with_heap with_trace this props id].
        rewrite Ht, <- app_assoc.
        change (props (this (with_heap _ (cancel q w))))
          with (props (this (cancel q w))).
        change (id (this (with_heap _ (cancel q w))))
          with (id (this (cancel q w))).
        rewrite Hprops, Hid. reflexivity.
      * intros message _. apply Hsent.
      * erewrite new_events_app;
          [|unfold send, log, store;
            cbn [snd trace with_heap with_trace]; rewrite Ht, <- app_assoc;
            reflexivity].
        rewrite count_app, Hcount. reflexivity.
    + split; [|split; [|split]].
      * eexists. split; [apply store_lookup|].
        repeat split; try reflexivity; exact Ha.
      * apply new_events_app. unfold store. cbn [trace with_heap].
        rewrite Ht, app_nil_r. reflexivity.
      * intros message _. apply Hsent.
      * erewrite new_events_app;
          [|unfold store; cbn [trace with_heap]; exact Ht].
        exact Hcount.
  - destruct (Tile.actor tile) as [a|] eqn:Ha.
    + split; [|split; [|split]].
      * exists tile. split; [exact Hr|]. repeat split; assumption.
      * apply new_events_app. reflexivity.
      * intros message Hm. discriminate Hm.
      * erewrite new_events_app; [|reflexivity]. reflexivity.
    + split; [|split; [|split]].
      * exists tile. split; [exact Hr|]. repeat split; assumption.
      * apply new_events_app. rewrite app_nil_r. reflexivity.
      * intros message Hm. discriminate Hm.
      * erewrite new_events_app; [|rewrite app_nil_r; reflexivity].
        reflexivity.
Qed.

(** *** A reload that is queued for too long *)


End TilesMore.

Section LifecycleResult.
Context `{RequestManager} `{Collaborators}.
Import LoadTileJSON.

Ltac open_world w :=
  destruct w as [[name0 props0 options0 timing0 bounds0 request0 loaded0
                  workers0 deduped0] map0 dispatcher0 browser0 heap0 trace0].

Ltac world_steps :=
  cbn [with_this with_dispatcher with_browser with_heap with_trace
       with_props with_options with_tileBounds with_tileJSONRequest
       with_loaded with_tileWorkers with_deduped log store
       this the_map dispatcher browser heap trace
       id props _options _collectResourceTiming tileBounds
       _tileJSONRequest _loaded _tileWorkers _deduped
       pending next_handle requested fst snd].

Ltac world_steps_in Hyp :=
  cbn [with_this with_dispatcher with_browser with_heap with_trace
       with_props with_options with_tileBounds with_tileJSONRequest
       with_loaded with_tileWorkers with_deduped log store
       this the_map dispatcher browser heap trace
       id props _options _collectResourceTiming tileBounds
       _tileJSONRequest _loaded _tileWorkers _deduped
       pending next_handle requested fst snd] in Hyp.


End LifecycleResult.

(** * More of the code at work on the concrete setting *)

Section MoreExamples.
Import Sample SampleMore LoadTileJSON.
#[local] Existing Instance manager.
#[local] Existing Instance collaborators.

(** A metadata fetch that fails with a server error. *)
Lemma metadata_failure_witness :
  let w := url_source in
  truthy (prop (_options (this w)) "url") = true /\
  forall e tileJSON,
    _loaded (this (json_response (next_handle (browser w)) (Some e) tileJSON
                                 (load w))) = true.
Proof.
  intros w. split; [reflexivity|].
  intros e tileJSON.
  exact (proj1 (proj1 (metadata_failure w eq_refl) e tileJSON)).
Defined.



(** Two tiles of one source. *)
Lemma tiles_are_independent_witness :
  1%nat <> 0%nat /\
  heap (loadTile two_tiles 0 7%nat) !! 1%nat = heap two_tiles !! 1%nat.
Proof.
  assert (Hne : 1%nat <> 0%nat) by discriminate.
  split; [exact Hne|].
  exact (proj1 (tiles_are_independent two_tiles 0 1 7%nat None None Hne)).
Defined.

(** A completion without error and without data. *)
Lemma done_calls_back_once_witness :
  let t := tile "loading" (Some 0%nat) (Some (Sent 0)) false None in
  let w := world true t in
  heap w !! 0%nat = Some t /\
  count is_invoke (new_events w (done w 0 7%nat None None)) = 1%nat.
Proof.
  intros t w.
  assert (Hr : heap w !! 0%nat = Some t) by reflexivity.
  split; [exact Hr|].
  exact (proj1 (done_calls_back_once w 0 t 7%nat None None Hr)).
Defined.

(** A completion with data. *)
Lemma done_materializes_on_success_witness :
  let t := tile "loading" (Some 0%nat) (Some (Sent 0)) false None in
  let w := world true t in
  let data := Some (some_data None) in
  heap w !! 0%nat = Some t /\
  LoadVectorData 0 data ∈ new_events w (done w 0 7%nat None data).
Proof.
  intros t w data.
  assert (Hr : heap w !! 0%nat = Some t) by reflexivity.
  split; [exact Hr|].
  exact (proj1 (proj2 (done_materializes_on_success w 0 t 7%nat None data Hr))
               eq_refl).
Defined.

(** Two tiles with the same URL. *)
Lemma same_url_same_worker_witness :
  let t := tile "loading" None None false None in
  let w := two_tiles in
  heap w !! 0%nat = Some t /\ heap w !! 1%nat = Some t /\
  has_actor t = false /\
  exists a,
    (Tile.actor <$> (heap (loadTile (loadTile w 0 7%nat) 1 8%nat) !! 0%nat))
      = Some (Some a) /\
    (Tile.actor <$> (heap (loadTile (loadTile w 0 7%nat) 1 8%nat) !! 1%nat))
      = Some (Some a).
Proof.
  intros t w.
  assert (H0 : heap w !! 0%nat = Some t) by (vm_compute; reflexivity).
  assert (H1 : heap w !! 1%nat = Some t) by (vm_compute; reflexivity).
  assert (Hne : 0%nat <> 1%nat) by discriminate.
  split; [exact H0|]. split; [exact H1|]. split; [reflexivity|].
  destruct (same_url_same_worker w 0 1 t t 7%nat 8%nat H0 H1 Hne
              (or_introl eq_refl) (or_introl eq_refl) eq_refl)
    as (a & Ha0 & Ha1 & _).
  exists a. split; [exact Ha0 | exact Ha1].
Defined.


(** A tile in flight is aborted. *)
Lemma abortTile_cancels_and_tells_worker_witness :
  let t := tile "loading" (Some 0%nat) (Some (Sent 0)) false None in
  let w := world true t in
  heap w !! 0%nat = Some t /\
  exists tile',
    heap (abortTile 0 w) !! 0%nat = Some tile' /\
    Tile.request tile' = None /\
    Tile.actor tile' = Some 0%nat.
Proof.
  intros t w.
  assert (Hr : heap w !! 0%nat = Some t) by reflexivity.
  split; [exact Hr|].
  destruct (proj1 (abortTile_cancels_and_tells_worker w 0 t Hr))
    as (tile' & Hh & Hq & Ha & _).
  exists tile'. split; [exact Hh|]. split; [exact Hq | exact Ha].
Defined.

End MoreExamples.

Section InertExamples.
Import Sample SampleMore.
#[local] Existing Instance manager.
#[local] Existing Instance inert.


End InertExamples.
